(** * Ride filesystem MCP server: path safety, file service, batch and watcher

    A shallow embedding of [filesystem_server/security.py],
    [filesystem_server/service.py], the validators of
    [filesystem_server/config.py] and the batch endpoint and the reading
    endpoints of [filesystem_server/api.py], over an explicit model of a
    POSIX file tree.

    Conventions.
    - A Python [str] used as a path or a file name is a Rocq [string]
      (a sequence of 8-bit characters; [lower()] and [strip()] act on ASCII).
    - A [pathlib.Path] that is absolute is the list of its names below the
      root ["/"]; [parts] puts the anchor back in front.
    - File content is a list of code points ([text]), and so is a name
      that is cleaned character by character; bytes on disk are a list of
      integers in [0, 256).
    - The file tree is a finite map from canonical locations to nodes, with a
      separate table of symbolic links, each with the canonical location it
      leads to (so there is no loop of links, and resolving never fails).
    - A method that changes the tree takes the tree and returns the new one
      with its result; an exception is a value of a sum type.
    - Time stamps, access rights and the asynchronous scheduling of the
      service are left out. *)

From Stdlib Require Import ZArith Lia List String Ascii Bool Sorted.
From stdpp Require Import base option list gmap strings.

Local Open Scope string_scope.
Local Open Scope list_scope.

(** ** Python string helpers *)

Module PyStr.

(** [str.startswith(prefix)]. *)
Fixpoint startswith (pre s : string) : bool :=
  match pre, s with
  | EmptyString, _ => true
  | String a pre', String b s' => Ascii.eqb a b && startswith pre' s'
  | String _ _, EmptyString => false
  end.

(** ASCII members of the set [str.strip()] removes: TAB, LF, VT, FF, CR,
    the separators 0x1c-0x1f and SPACE. *)
Definition is_space (c : ascii) : bool :=
  let n := nat_of_ascii c in
  ((9 <=? n)%nat && (n <=? 13)%nat) || ((28 <=? n)%nat && (n <=? 32)%nat).

(** The characters of [lstrip('/\\')]. *)
Definition is_sep (c : ascii) : bool :=
  (Ascii.eqb c "/") || (Ascii.eqb c "\").

(** [str.lstrip] for a set of characters given as a predicate. *)
Fixpoint lstrip (p : ascii -> bool) (s : string) : string :=
  match s with
  | EmptyString => EmptyString
  | String c r => if p c then lstrip p r else s
  end.

(** [str.rstrip] for a set of characters given as a predicate. *)
Fixpoint rstrip (p : ascii -> bool) (s : string) : string :=
  match s with
  | EmptyString => EmptyString
  | String c r =>
      match rstrip p r with
      | EmptyString => if p c then EmptyString else String c EmptyString
      | r' => String c r'
      end
  end.

(** [str.strip()]. *)
Definition strip (s : string) : string := lstrip is_space (rstrip is_space s).

(** [s.split('/')]: never empty, keeps empty fields. *)
Fixpoint split_slash (s : string) : list string :=
  match s with
  | EmptyString => [EmptyString]
  | String c r =>
      if Ascii.eqb c "/" then EmptyString :: split_slash r
      else match split_slash r with
           | h :: t => String c h :: t
           | [] => [String c EmptyString]
           end
  end.

(** ASCII [str.lower()]. *)
Definition lower_ascii (c : ascii) : ascii :=
  let n := nat_of_ascii c in
  if ((65 <=? n)%nat && (n <=? 90)%nat) then ascii_of_nat (n + 32) else c.

Fixpoint lower (s : string) : string :=
  match s with
  | EmptyString => EmptyString
  | String c r => String (lower_ascii c) (lower r)
  end.

(** Index of the last ["."] of [s] ([str.rfind('.')]), if any. *)
Fixpoint rfind_dot (s : string) : option nat :=
  match s with
  | EmptyString => None
  | String c r =>
      match rfind_dot r with
      | Some i => Some (S i)
      | None => if Ascii.eqb c "." then Some 0%nat else None
      end
  end.

(** [s[i:]]. *)
Fixpoint drop (i : nat) (s : string) : string :=
  match i, s with
  | O, _ => s
  | S i', String _ r => drop i' r
  | S _, EmptyString => EmptyString
  end.

(** ["/".join(names)]. *)
Fixpoint join_slash (names : list string) : string :=
  match names with
  | [] => EmptyString
  | [n] => n
  | n :: rest => n ++ "/" ++ join_slash rest
  end.

End PyStr.

(** ** pathlib on POSIX *)

Module PyPath.

(** An absolute path: its names below the root. *)
Definition path := list string.

(** [Path.parts] of an absolute path: the anchor, then the names. *)
Definition parts (p : path) : list string := "/" :: p.

(** The names pathlib keeps when it parses a string: fields between
    slashes, without the empty ones and the ["."] ones. *)
Definition segments (s : string) : list string :=
  filter (fun seg => seg ≠ EmptyString ∧ seg ≠ ".") (PyStr.split_slash s).

(** [base / s]: an [s] that is itself absolute replaces [base]. *)
Definition joinpath (base : path) (s : string) : path :=
  if PyStr.startswith "/" s then segments s else base ++ segments s.

(** [p.relative_to(base)]: the names of [p] below [base], or [None] for the
    [ValueError] pathlib raises when [p] is not [base] or below it. *)
Fixpoint relative_to (p base : path) : option (list string) :=
  match base, p with
  | [], _ => Some p
  | b :: base', x :: p' => if String.eqb b x then relative_to p' base' else None
  | _ :: _, [] => None
  end.

(** [p.is_relative_to(base)]. *)
Definition is_relative_to (p base : path) : bool :=
  match relative_to p base with Some _ => true | None => false end.

(** [p.parent]; the parent of the root is the root. *)
Definition parent (p : path) : path := removelast p.

(** [p.name]; empty for the root. *)
Definition name (p : path) : string := List.last p EmptyString.

(** [p.suffix]: the last dot of the name and what follows, unless the dot is
    the first or the last character of the name. *)
Definition suffix (p : path) : string :=
  let n := name p in
  match PyStr.rfind_dot n with
  | Some i =>
      if ((0 <? i)%nat && (i <? String.length n - 1)%nat) then PyStr.drop i n
      else EmptyString
  | None => EmptyString
  end.

(** [str(p)] for a relative path: ["."] when there is no name. *)
Definition str_rel (names : list string) : string :=
  match names with
  | [] => "."
  | _ => PyStr.join_slash names
  end.

End PyPath.

Export PyPath (path).

(** ** The file tree

    [nodes] holds the regular files and directories at their canonical
    locations (the root is always a directory); [links] holds the symbolic
    links, each with the canonical location it leads to.  The operations are
    the system calls and pathlib methods the service uses; each returns the
    [errno] of the [OSError] Python raises, or its result. *)

Module Fs.

Inductive node : Type :=
| File (data : list Z)
| Dir.

Inductive errno : Type :=
| ENOENT    (* FileNotFoundError *)
| EEXIST    (* FileExistsError *)
| ENOTDIR   (* NotADirectoryError *)
| EISDIR    (* IsADirectoryError *)
| ESYMLINK. (* shutil.rmtree called on a symbolic link *)

Record filesystem : Type := mkfs {
  nodes : gmap (list string) node;
  links : gmap (list string) (list string)
}.

Definition empty : filesystem := mkfs ∅ ∅.

(** One name of a walk from the root: [".."] goes up, a symbolic link is
    followed, any other name goes down. *)
Definition step (fs : filesystem) (cur : path) (c : string) : path :=
  if String.eqb c ".." then removelast cur
  else match links fs !! (cur ++ [c]) with
       | Some target => target
       | None => cur ++ [c]
       end.

(** [Path.resolve()] (non-strict): the canonical location of [p]. *)
Definition resolve (fs : filesystem) (p : path) : path :=
  fold_left (step fs) p [].

(** The location a path names when its last name is not followed. *)
Definition locate (fs : filesystem) (p : path) : path :=
  match p with
  | [] => []
  | _ =>
      if String.eqb (PyPath.name p) ".." then resolve fs p
      else resolve fs (PyPath.parent p) ++ [PyPath.name p]
  end.

Definition lookup_node (fs : filesystem) (loc : path) : option node :=
  match loc with
  | [] => Some Dir
  | _ => nodes fs !! loc
  end.

(** [os.stat]: follows links; [None] when nothing is there. *)
Definition stat (fs : filesystem) (p : path) : option node :=
  lookup_node fs (resolve fs p).

(** [Path.exists()], [Path.is_file()], [Path.is_dir()]. *)
Definition exists_ (fs : filesystem) (p : path) : bool :=
  match stat fs p with Some _ => true | None => false end.

Definition is_file (fs : filesystem) (p : path) : bool :=
  match stat fs p with Some (File _) => true | _ => false end.

Definition is_dir (fs : filesystem) (p : path) : bool :=
  match stat fs p with Some Dir => true | _ => false end.

(** [os.access(p, mode)]: the server is taken to own its tree, so access is
    granted exactly when the path leads to a node; no operation fails for
    want of a permission. *)
Definition access (fs : filesystem) (p : path) : bool := exists_ fs p.

Definition is_link (fs : filesystem) (loc : path) : bool :=
  match links fs !! loc with Some _ => true | None => false end.

(** Something, a link included, sits at this location. *)
Definition occupied (fs : filesystem) (loc : path) : bool :=
  is_link fs loc || match lookup_node fs loc with Some _ => true | None => false end.

Definition set_node (fs : filesystem) (loc : path) (n : node) : filesystem :=
  mkfs (<[loc := n]> (nodes fs)) (links fs).

(** [os.mkdir(p)]. *)
Definition os_mkdir (fs : filesystem) (p : path) : errno + filesystem :=
  let loc := locate fs p in
  if occupied fs loc then inl EEXIST
  else match lookup_node fs (PyPath.parent loc) with
       | Some Dir => inr (set_node fs loc Dir)
       | Some (File _) => inl ENOTDIR
       | None => inl ENOENT
       end.

(** [Path.mkdir(parents=False, exist_ok)]: [os.mkdir]; a
    [FileNotFoundError] is raised again, any other [OSError] is raised
    again unless [exist_ok] holds and the path is a directory. *)
Definition mkdir_once (fs : filesystem) (p : path) (exist_ok : bool)
  : errno + filesystem :=
  match os_mkdir fs p with
  | inr fs' => inr fs'
  | inl ENOENT => inl ENOENT
  | inl e => if negb exist_ok || negb (is_dir fs p) then inl e else inr fs
  end.

(** [Path.mkdir(parents, exist_ok)] as pathlib writes it: on
    [FileNotFoundError] with [parents] (and a parent other than the path
    itself), make the parent with [parents] and [exist_ok], then make the
    path without [parents].  The recursion is on the names of the path,
    last first. *)
Fixpoint mkdir_rev (fs : filesystem) (rp : list string)
         (parents exist_ok : bool) : filesystem * option errno :=
  let p := rev rp in
  match os_mkdir fs p with
  | inr fs' => (fs', None)
  | inl ENOENT =>
      match rp with
      | [] => (fs, Some ENOENT)
      | _ :: rparent =>
          if parents then
            match mkdir_rev fs rparent true true with
            | (fs1, Some e) => (fs1, Some e)
            | (fs1, None) =>
                match mkdir_once fs1 p exist_ok with
                | inl e => (fs1, Some e)
                | inr fs2 => (fs2, None)
                end
            end
          else (fs, Some ENOENT)
      end
  | inl e =>
      if negb exist_ok || negb (is_dir fs p) then (fs, Some e) else (fs, None)
  end.

(** The state [Path.mkdir] leaves, and the [OSError] it raised if any. *)
Definition mkdir (fs : filesystem) (p : path) (parents exist_ok : bool)
  : filesystem * option errno :=
  mkdir_rev fs (rev p) parents exist_ok.

(** [open(p, 'w')] followed by a write of [data] and a close: the link is
    followed, a missing file is created in an existing directory, an
    existing file is replaced. *)
Definition write_bytes (fs : filesystem) (p : path) (data : list Z)
  : errno + filesystem :=
  let loc := resolve fs p in
  match lookup_node fs loc with
  | Some Dir => inl EISDIR
  | Some (File _) => inr (set_node fs loc (File data))
  | None =>
      match lookup_node fs (PyPath.parent loc) with
      | Some Dir => inr (set_node fs loc (File data))
      | Some (File _) => inl ENOTDIR
      | None => inl ENOENT
      end
  end.

(** [open(p, 'r')] followed by a read of everything. *)
Definition read_bytes (fs : filesystem) (p : path) : errno + list Z :=
  match stat fs p with
  | Some (File data) => inr data
  | Some Dir => inl EISDIR
  | None => inl ENOENT
  end.

(** [Path.unlink()]: removes a link itself, or a regular file. *)
Definition unlink (fs : filesystem) (p : path) : errno + filesystem :=
  let loc := locate fs p in
  if is_link fs loc then inr (mkfs (nodes fs) (delete loc (links fs)))
  else match lookup_node fs loc with
       | Some (File _) => inr (mkfs (delete loc (nodes fs)) (links fs))
       | Some Dir => inl EISDIR
       | None => inl ENOENT
       end.

(** [shutil.rmtree(p)]: refuses a symbolic link; removes the directory
    with every node and link at or below it. *)
Definition rmtree (fs : filesystem) (p : path) : errno + filesystem :=
  let loc := locate fs p in
  if is_link fs loc then inl ESYMLINK
  else match lookup_node fs loc with
       | Some Dir =>
           inr (mkfs
                  (filter (fun kv => PyPath.is_relative_to kv.1 loc = false) (nodes fs))
                  (filter (fun kv => PyPath.is_relative_to kv.1 loc = false) (links fs)))
       | Some (File _) => inl ENOTDIR
       | None => inl ENOENT
       end.

(** The name of [k] when it lies directly in [loc]. *)
Definition child_name (loc k : path) : option string :=
  match PyPath.relative_to k loc with
  | Some [n] => Some n
  | _ => None
  end.

(** The names found directly in the directory at [loc], links included,
    in the order the system hands them out. *)
Definition children (fs : filesystem) (loc : path) : list string :=
  omap (child_name loc) (elements (dom (nodes fs) ∪ dom (links fs))).

(** [Path.iterdir()]: the paths of the entries of a directory. *)
Definition iterdir (fs : filesystem) (p : path) : errno + list path :=
  match stat fs p with
  | Some Dir => inr (map (fun n => p ++ [n]) (children fs (resolve fs p)))
  | Some (File _) => inl ENOTDIR
  | None => inl ENOENT
  end.

End Fs.

(** ** Text and bytes

    What [str.encode], [bytes.decode] and the text layer of [open] do. *)

Module Codec.

(** A Python [str] as content: its code points. *)
Definition text := list Z.

Definition is_surrogate (c : Z) : bool := (55296 <=? c)%Z && (c <=? 57343)%Z.

(** UTF-8 of one code point; [None] for the [UnicodeEncodeError] of a
    surrogate (and for a number that is no code point). *)
Definition utf8_encode_cp (c : Z) : option (list Z) :=
  if (c <? 0)%Z then None
  else if (c <? 128)%Z then Some [c]
  else if (c <? 2048)%Z then
    Some [192 + c / 64; 128 + c mod 64]%Z
  else if (c <? 65536)%Z then
    if is_surrogate c then None
    else Some [224 + c / 4096; 128 + (c / 64) mod 64; 128 + c mod 64]%Z
  else if (c <? 1114112)%Z then
    Some [240 + c / 262144; 128 + (c / 4096) mod 64;
          128 + (c / 64) mod 64; 128 + c mod 64]%Z
  else None.

(** [s.encode('utf-8')]. *)
Fixpoint utf8_encode (s : text) : option (list Z) :=
  match s with
  | [] => Some []
  | c :: r =>
      match utf8_encode_cp c, utf8_encode r with
      | Some bs, Some rest => Some (bs ++ rest)
      | _, _ => None
      end
  end.

Definition is_cont (b : Z) : bool := (128 <=? b)%Z && (b <=? 191)%Z.

(** [bytes.decode('utf-8')], strict: [None] for the [UnicodeDecodeError] of
    a stray or missing continuation byte, an overlong form, a surrogate or
    a value past U+10FFFF. *)
Fixpoint utf8_decode (bs : list Z) : option text :=
  match bs with
  | [] => Some []
  | b0 :: r0 =>
      if (0 <=? b0)%Z && (b0 <? 128)%Z then
        option_map (cons b0) (utf8_decode r0)
      else if (192 <=? b0)%Z && (b0 <? 224)%Z then
        match r0 with
        | b1 :: r1 =>
            let c := ((b0 - 192) * 64 + (b1 - 128))%Z in
            if is_cont b1 && (128 <=? c)%Z
            then option_map (cons c) (utf8_decode r1) else None
        | _ => None
        end
      else if (224 <=? b0)%Z && (b0 <? 240)%Z then
        match r0 with
        | b1 :: b2 :: r2 =>
            let c := ((b0 - 224) * 4096 + (b1 - 128) * 64 + (b2 - 128))%Z in
            if is_cont b1 && is_cont b2 && (2048 <=? c)%Z && negb (is_surrogate c)
            then option_map (cons c) (utf8_decode r2) else None
        | _ => None
        end
      else if (240 <=? b0)%Z && (b0 <? 248)%Z then
        match r0 with
        | b1 :: b2 :: b3 :: r3 =>
            let c := ((b0 - 240) * 262144 + (b1 - 128) * 4096
                      + (b2 - 128) * 64 + (b3 - 128))%Z in
            if is_cont b1 && is_cont b2 && is_cont b3
               && (65536 <=? c)%Z && (c <? 1114112)%Z
            then option_map (cons c) (utf8_decode r3) else None
        | _ => None
        end
      else None
  end.

Definition CR : Z := 13.
Definition LF : Z := 10.

(** Reading in text mode with universal newlines: CR LF and a lone CR
    both arrive as LF. *)
Fixpoint universal_newlines (s : text) : text :=
  match s with
  | [] => []
  | c :: r =>
      if (c =? CR)%Z then
        match r with
        | d :: r' => if (d =? LF)%Z then LF :: universal_newlines r'
                     else LF :: universal_newlines r
        | [] => [LF]
        end
      else c :: universal_newlines r
  end.

(** Writing in text mode on POSIX: LF is the line separator, nothing is
    translated. *)
Definition write_newlines (s : text) : text := s.

(** The code points of an ASCII literal. *)
Fixpoint of_string (s : string) : text :=
  match s with
  | EmptyString => []
  | String c r => Z.of_nat (nat_of_ascii c) :: of_string r
  end.

End Codec.

Export Codec (text).

(** ** Python [str] methods on code points

    For a [str] that is looked at character by character: indices and
    lengths count code points, and an index is an integer as in Python, with
    -1 for "not found" and a negative bound of a slice counted from the
    end. *)

Module PyText.

Local Open Scope Z_scope.

(** [c.isspace()] for one character: the white space [str.strip()]
    removes. *)
Definition is_whitespace (c : Z) : bool :=
  ((9 <=? c) && (c <=? 13)) || ((28 <=? c) && (c <=? 32))
  || (c =? 133) || (c =? 160) || (c =? 5760)
  || ((8192 <=? c) && (c <=? 8202))
  || (c =? 8232) || (c =? 8233) || (c =? 8239) || (c =? 8287) || (c =? 12288).

Fixpoint lstrip (s : text) : text :=
  match s with
  | [] => []
  | c :: r => if is_whitespace c then lstrip r else s
  end.

Fixpoint rstrip (s : text) : text :=
  match s with
  | [] => []
  | c :: r =>
      match rstrip r with
      | [] => if is_whitespace c then [] else [c]
      | r' => c :: r'
      end
  end.

(** [s.strip()]. *)
Definition strip (s : text) : text := lstrip (rstrip s).

(** [s.rfind(c)] for one character: its last index, or -1. *)
Fixpoint rfind (c : Z) (s : text) : Z :=
  match s with
  | [] => -1
  | d :: r =>
      let i := rfind c r in
      if 0 <=? i then i + 1 else if d =? c then 0 else -1
  end.

(** The place a bound [k] of a slice of [s] stands for. *)
Definition bound (k : Z) (s : text) : nat :=
  let n := Z.of_nat (length s) in
  Z.to_nat (Z.min (Z.max (if k <? 0 then n + k else k) 0) n).

(** [s[:k]] and [s[k:]]. *)
Definition slice_to (k : Z) (s : text) : text := firstn (bound k s) s.
Definition slice_from (k : Z) (s : text) : text := skipn (bound k s) s.

Definition SLASH : Z := 47.
Definition DOT : Z := 46.

(** [os.path.splitext(p)] on POSIX: the extension starts at the last dot
    that follows the last slash, provided a character other than a dot
    stands between that slash and that dot. *)
Definition splitext (p : text) : text * text :=
  let sep_index := rfind SLASH p in
  let dot_index := rfind DOT p in
  if (sep_index <? dot_index)
     && existsb (fun d => negb (d =? DOT))
                (slice_from (sep_index + 1) (slice_to dot_index p))
  then (slice_to dot_index p, slice_from dot_index p)
  else (p, []).

End PyText.

(** ** SHA-256 (FIPS 180-4), for the examples *)

Module Sha256.

Local Open Scope Z_scope.

Definition mask : Z := 2 ^ 32 - 1.
Definition add32 (x y : Z) : Z := Z.land (x + y) mask.
Definition rotr (n x : Z) : Z :=
  Z.lor (Z.shiftr x n) (Z.land (Z.shiftl x (32 - n)) mask).
Definition not32 (x : Z) : Z := Z.lxor x mask.

Definition ch (x y z : Z) : Z := Z.lxor (Z.land x y) (Z.land (not32 x) z).
Definition maj (x y z : Z) : Z :=
  Z.lxor (Z.lxor (Z.land x y) (Z.land x z)) (Z.land y z).
Definition bsig0 (x : Z) : Z := Z.lxor (Z.lxor (rotr 2 x) (rotr 13 x)) (rotr 22 x).
Definition bsig1 (x : Z) : Z := Z.lxor (Z.lxor (rotr 6 x) (rotr 11 x)) (rotr 25 x).
Definition ssig0 (x : Z) : Z := Z.lxor (Z.lxor (rotr 7 x) (rotr 18 x)) (Z.shiftr x 3).
Definition ssig1 (x : Z) : Z := Z.lxor (Z.lxor (rotr 17 x) (rotr 19 x)) (Z.shiftr x 10).

(** The first 32 bits of the fractional parts of the cube roots of the
    first 64 primes. *)
Definition K : list Z :=
  [1116352408; 1899447441; 3049323471; 3921009573; 961987163; 1508970993;
   2453635748; 2870763221; 3624381080; 310598401; 607225278; 1426881987;
   1925078388; 2162078206; 2614888103; 3248222580; 3835390401; 4022224774;
   264347078; 604807628; 770255983; 1249150122; 1555081692; 1996064986;
   2554220882; 2821834349; 2952996808; 3210313671; 3336571891; 3584528711;
   113926993; 338241895; 666307205; 773529912; 1294757372; 1396182291;
   1695183700; 1986661051; 2177026350; 2456956037; 2730485921; 2820302411;
   3259730800; 3345764771; 3516065817; 3600352804; 4094571909; 275423344;
   430227734; 506948616; 659060556; 883997877; 958139571; 1322822218;
   1537002063; 1747873779; 1955562222; 2024104815; 2227730452; 2361852424;
   2428436474; 2756734187; 3204031479; 3329325298].

(** The same of the square roots of the first 8 primes. *)
Definition H0 : list Z :=
  [1779033703; 3144134277; 1013904242; 2773480762; 1359893119; 2600822924;
   528734635; 1541459225].

(** The bytes of [x], most significant first. *)
Fixpoint big_endian (n : nat) (x : Z) : list Z :=
  match n with
  | O => []
  | S n' => big_endian n' (Z.shiftr x 8) ++ [Z.land x 255]
  end.

(** The message, a one bit, zeros up to 56 modulo 64, the bit length. *)
Definition pad (msg : list Z) : list Z :=
  let l := Z.of_nat (length msg) in
  msg ++ [128] ++ repeat 0 (Z.to_nat ((55 - l) mod 64)) ++ big_endian 8 (8 * l).

Fixpoint words (bs : list Z) : list Z :=
  match bs with
  | a :: b :: c :: d :: r =>
      (Z.shiftl a 24 + Z.shiftl b 16 + Z.shiftl c 8 + d) :: words r
  | _ => []
  end.

(** The message schedule, newest word first. *)
Fixpoint extend (n : nat) (w : list Z) : list Z :=
  match n with
  | O => w
  | S n' =>
      extend n'
        (add32 (add32 (ssig1 (nth 1 w 0)) (nth 6 w 0))
               (add32 (ssig0 (nth 14 w 0)) (nth 15 w 0)) :: w)
  end.

Definition schedule (block : list Z) : list Z := rev (extend 48 (rev block)).

Definition round (s : list Z) (kw : Z * Z) : list Z :=
  match s with
  | [a; b; c; d; e; f; g; h] =>
      let t1 := add32 (add32 (add32 h (bsig1 e)) (add32 (ch e f g) kw.1)) kw.2 in
      let t2 := add32 (bsig0 a) (maj a b c) in
      [add32 t1 t2; a; b; c; add32 d t1; e; f; g]
  | _ => s
  end.

Definition compress (h : list Z) (block : list Z) : list Z :=
  zip_with add32 h (fold_left round (zip K (schedule block)) h).

(** The blocks of sixteen words; [n] bounds their number. *)
Fixpoint blocks (n : nat) (ws : list Z) : list (list Z) :=
  match n, ws with
  | S n', _ :: _ => firstn 16 ws :: blocks n' (skipn 16 ws)
  | _, _ => []
  end.

Definition digest (msg : list Z) : list Z :=
  let ws := words (pad msg) in
  flat_map (big_endian 4) (fold_left compress (blocks (length ws) ws) H0).

Definition hex_digit (x : Z) : ascii :=
  nth (Z.to_nat x) (list_ascii_of_string "0123456789abcdef") "0"%char.

Fixpoint hex (bs : list Z) : string :=
  match bs with
  | [] => EmptyString
  | b :: r => String (hex_digit (Z.shiftr b 4)) (String (hex_digit (Z.land b 15)) (hex r))
  end.

(** [hashlib.sha256(msg).hexdigest()]. *)
Definition hexdigest (msg : list Z) : string := hex (digest msg).

End Sha256.


(** ** Libraries the server calls

    [hashlib.sha256(..).hexdigest()], [mimetypes.guess_type] and the codecs
    Python knows besides UTF-8 are taken as given. *)

Class Platform : Type := {
  sha256_hexdigest : list Z -> string;
  guess_type : string -> option string;
  other_encoder : string -> option (text -> option (list Z))
}.

(** ** security.py *)

Module Security.

(** A [SecurityManager] after [__init__]: the resolved base directory, the
    resolved blocked paths, the lower-cased allowed extensions and the
    size limit of the configuration. *)
Record SecurityManager : Type := mkSecurityManager {
  base_dir : path;
  _blocked_paths_set : gset (list string);
  _allowed_extensions_set : gset string;
  max_file_size : Z
}.

(** The fields of [ServerConfig] that [SecurityManager.__init__] reads,
    paths already parsed. *)
Record ServerConfig : Type := mkServerConfig {
  cfg_base_dir : path;
  cfg_max_file_size : Z;
  cfg_allowed_extensions : list string;
  cfg_blocked_paths : list path
}.

Definition init (fs : Fs.filesystem) (config : ServerConfig) : SecurityManager :=
  {| base_dir := Fs.resolve fs (cfg_base_dir config);
     _blocked_paths_set := list_to_set (map (Fs.resolve fs) (cfg_blocked_paths config));
     _allowed_extensions_set := list_to_set (map PyStr.lower (cfg_allowed_extensions config));
     max_file_size := cfg_max_file_size config |}.

Definition is_dot (c : ascii) : bool := Ascii.eqb c ".".

(** The characters [sanitize_filename] calls dangerous: the angle
    brackets, the colon, the double quote, the slash, the backslash, the
    bar, the question mark and the asterisk. *)
Definition dangerous_chars : text := [60; 62; 58; 34; 47; 92; 124; 63; 42]%Z.

(** The characters [sanitize_filename] keeps:
    [c not in dangerous_chars and ord(c) >= 32]. *)
Definition kept_char (c : Z) : bool :=
  negb (existsb (Z.eqb c) dangerous_chars) && (32 <=? c)%Z.


Section Methods.

Context `{Platform}.
Variable self : SecurityManager.

(** [is_path_safe]: the four checks, in the order of the source.  The
    [OSError] and [ValueError] handlers answer no; resolving never raises
    here, so they are not entered. *)
Definition is_path_safe (fs : Fs.filesystem) (p : path) : bool :=
  let normalized_path := Fs.resolve fs p in
  match PyPath.relative_to normalized_path (base_dir self) with
  | None => false
  | Some relative_path =>
      if existsb (String.eqb "..") (PyPath.parts p) then false
      else if existsb (fun blocked_path =>
                         PyPath.is_relative_to normalized_path blocked_path)
                      (elements (_blocked_paths_set self)) then false
      else if existsb (PyStr.startswith ".") relative_path then false
      else true
  end.

(** [file_path.suffix.lower().lstrip('.')]. *)
Definition extension (file_path : path) : string :=
  PyStr.lstrip is_dot (PyStr.lower (PyPath.suffix file_path)).

(** [validate_file_extension]. *)
Definition validate_file_extension (file_path : path) : bool :=
  if decide (_allowed_extensions_set self = ∅) then true
  else bool_decide (extension file_path ∈ _allowed_extensions_set self).

(** [validate_file_size]. *)
Definition validate_file_size (file_size : Z) : bool :=
  (0 <=? file_size)%Z && (file_size <=? max_file_size self)%Z.

(** The string [get_safe_path] joins to the base directory. *)
Definition clean_path (relative_path : string) : string :=
  PyStr.lstrip PyStr.is_sep (PyStr.strip relative_path).

(** [get_safe_path]. *)
Definition get_safe_path (fs : Fs.filesystem) (relative_path : string)
  : option path :=
  let safe_path := PyPath.joinpath (base_dir self) (clean_path relative_path) in
  if is_path_safe fs safe_path then Some safe_path else None.

(** [calculate_checksum]; [None] when the content has no UTF-8 form
    ([UnicodeEncodeError]). *)
Definition calculate_checksum (content : text) : option string :=
  option_map sha256_hexdigest (Codec.utf8_encode content).

(** [calculate_file_checksum]: the digest of the bytes of the file, read
    in chunks; [None] on an [OSError]. *)
Definition calculate_file_checksum (fs : Fs.filesystem) (file_path : path)
  : option string :=
  match Fs.read_bytes fs file_path with
  | inr data => Some (sha256_hexdigest data)
  | inl _ => None
  end.

(** [get_mime_type]. *)
Definition get_mime_type (file_path : path) : option string :=
  guess_type ("/" ++ PyStr.join_slash file_path).

(** [can_read_file]. *)
Definition can_read_file (fs : Fs.filesystem) (file_path : path) : bool :=
  if negb (is_path_safe fs file_path) then false
  else if negb (Fs.exists_ fs file_path) then false
  else if negb (Fs.is_file fs file_path) then false
  else Fs.access fs file_path.


(** [can_delete_file]. *)
Definition can_delete_file (fs : Fs.filesystem) (file_path : path) : bool :=
  if negb (is_path_safe fs file_path) then false
  else if negb (Fs.exists_ fs file_path) then false
  else Fs.access fs (PyPath.parent file_path).

(** [sanitize_filename]: the characters of [dangerous_chars] and the
    control characters are left out; a name of more than 255 characters is
    cut in front of its extension; white space is stripped from both ends. *)
Definition sanitize_filename (filename : text) : text :=
  let sanitized := List.filter kept_char filename in
  let sanitized :=
    if (255 <? Z.of_nat (length sanitized))%Z then
      let '(name, ext) := PyText.splitext sanitized in
      let max_name_length := (255 - Z.of_nat (length ext))%Z in
      PyText.slice_to max_name_length name ++ ext
    else sanitized in
  PyText.strip sanitized.


End Methods.

End Security.

(** ** models.py and service.py *)

Module Service.

Import Security.

(** What a Python exception caught by the service can be here. *)
Inductive exn : Type :=
| OSError (e : Fs.errno)
| LookupError            (* unknown encoding *)
| UnicodeEncodeError
| UnicodeDecodeError
| ValueError.            (* relative_to outside the base, size past the limit *)

(** The [message=] texts of the service, by the literal they are built
    from. *)
Inductive Message : Type :=
| MsgUnsafePath                        (* "Небезопасный путь" *)
| MsgForbiddenExtension (suffix : string)
                                       (* "Запрещенное расширение файла: {suffix}" *)
| MsgSizeExceeded (limit : Z)          (* "Превышен максимальный размер файла: {limit} байт" *)
| MsgFileExists                        (* "Файл уже существует" *)
| MsgCreateError (e : exn)             (* "Ошибка создания файла: {e}" *)
| MsgFileNotFound                      (* "Файл не найден" *)
| MsgUpdateError (e : exn)             (* "Ошибка обновления файла: {e}" *)
| MsgNoDeleteRights                    (* "Нет прав на удаление файла" *)
| MsgNotFound                          (* "Файл или директория не найдены" *)
| MsgDeleteError (e : exn)             (* "Ошибка удаления: {e}" *)
| MsgDirectoryExists                   (* "Директория уже существует" *)
| MsgCreateDirectoryError (e : exn).   (* "Ошибка создания директории: {e}" *)

(** [FileOperationResult] as the service builds it: the keywords it passes
    to the constructor, time stamps left out.  [message] is one of them,
    though models.py declares no field of that name. *)
Record FileOperationResult : Type := mkResult {
  r_path : string;
  r_operation : string;
  r_success : bool;
  r_message : option Message;
  r_size : option Z;
  r_checksum : option string
}.

Definition failure (p op : string) (m : Message) : FileOperationResult :=
  mkResult p op false (Some m) None None.

Record FileCreateRequest : Type := mkCreate {
  c_path : string;
  c_content : text;
  c_overwrite : bool;
  c_encoding : string
}.

Record FileUpdateRequest : Type := mkUpdate {
  u_content : text;
  u_encoding : string;
  u_create_if_missing : bool
}.

Record DirectoryCreateRequest : Type := mkDirCreate {
  d_path : string;
  d_recursive : bool
}.

Record FileContent : Type := mkContent {
  fc_path : string;
  fc_content : text;
  fc_size : Z;
  fc_mime_type : option string;
  fc_encoding : string;
  fc_checksum : option string
}.

Record FileInfo : Type := mkInfo {
  name : string;
  fi_path : string;
  fi_size : Z;
  is_readonly : bool;
  is_directory : bool;
  fi_mime_type : option string;
  fi_checksum : option string
}.

Record FileListResponse : Type := mkList {
  l_path : string;
  files : list FileInfo;
  directories : list FileInfo;
  total_count : Z
}.

(** The exceptions [read_file] and [list_directory] raise. *)
Inductive ServiceError : Type :=
| UnsafePathError          (* ValueError("Небезопасный путь: ...") *)
| NoAccessError            (* PermissionError("Нет доступа к файлу: ...") *)
| DirectoryNotFoundError   (* FileNotFoundError("Директория не найдена: ...") *)
| NotADirectoryError       (* ValueError("Путь не является директорией: ...") *)
| ReadError (e : exn)      (* IOError("Ошибка чтения файла ...") *)
| ListError (e : exn).     (* IOError("Ошибка чтения директории ...") *)

(** The state a call leaves, with the value it returned or the exception
    it raised. *)
Inductive run (A : Type) : Type :=
| Returned (fs : Fs.filesystem) (a : A)
| Raised (fs : Fs.filesystem) (e : exn).
Arguments Returned {A} fs a.
Arguments Raised {A} fs e.

(** [Path.mkdir(parents, exist_ok)]. *)
Definition path_mkdir (fs : Fs.filesystem) (p : path) (parents exist_ok : bool)
  : run unit :=
  match Fs.mkdir fs p parents exist_ok with
  | (fs', Some e) => Raised fs' (OSError e)
  | (fs', None) => Returned fs' tt
  end.

Definition is_utf8_name (encoding : string) : bool :=
  let n := PyStr.lower encoding in
  String.eqb n "utf-8" || String.eqb n "utf8" || String.eqb n "utf_8".

Section Operations.

Context `{Platform}.
Variable self : SecurityManager.

(** The encoder [codecs] finds for a name. *)
Definition lookup_encoder (encoding : string)
  : option (text -> option (list Z)) :=
  if is_utf8_name encoding then Some Codec.utf8_encode
  else other_encoder encoding.

(** [content.encode(encoding)]. *)
Definition encode (content : text) (encoding : string) : exn + list Z :=
  match lookup_encoder encoding with
  | None => inl LookupError
  | Some enc =>
      match enc content with
      | None => inl UnicodeEncodeError
      | Some bs => inr bs
      end
  end.

(** [open(p, 'w', encoding=..)] then [write(content)]: the file is
    created or emptied when it is opened, the text is encoded when it is
    written. *)
Definition write_text (fs : Fs.filesystem) (p : path) (encoding : string)
           (content : text) : run unit :=
  match lookup_encoder encoding with
  | None => Raised fs LookupError
  | Some enc =>
      match Fs.write_bytes fs p [] with
      | inl e => Raised fs (OSError e)
      | inr fs1 =>
          match enc (Codec.write_newlines content) with
          | None => Raised fs1 UnicodeEncodeError
          | Some bs =>
              match Fs.write_bytes fs1 p bs with
              | inl e => Raised fs1 (OSError e)
              | inr fs2 => Returned fs2 tt
              end
          end
      end
  end.

(** [open(p, 'r', encoding='utf-8')] then [read()]. *)
Definition read_text (fs : Fs.filesystem) (p : path) : exn + text :=
  match Fs.read_bytes fs p with
  | inl e => inl (OSError e)
  | inr bs =>
      match Codec.utf8_decode bs with
      | None => inl UnicodeDecodeError
      | Some s => inr (Codec.universal_newlines s)
      end
  end.

(** [str(p.relative_to(self.base_dir))]. *)
Definition relative_str (p : path) : exn + string :=
  match PyPath.relative_to p (base_dir self) with
  | None => inl ValueError
  | Some names => inr (PyPath.str_rel names)
  end.

(** Lines 187-199 and 305-316: [stat], checksum and the success
    result. *)
Definition written (fs : Fs.filesystem) (op : string) (file_path : path)
           (content : text) (content_size : Z)
  : exn + FileOperationResult :=
  match Fs.stat fs file_path with
  | None => inl (OSError Fs.ENOENT)
  | Some _ =>
      match calculate_checksum content with
      | None => inl UnicodeEncodeError
      | Some checksum =>
          match relative_str file_path with
          | inl e => inl e
          | inr rel =>
              inr (mkResult rel op true None (Some content_size) (Some checksum))
          end
      end
  end.

(** [create_file]. *)
Definition create_file (fs : Fs.filesystem) (request : FileCreateRequest)
  : Fs.filesystem * FileOperationResult :=
  let fail := failure (c_path request) "create" in
  match get_safe_path self fs (c_path request) with
  | None => (fs, fail MsgUnsafePath)
  | Some file_path =>
      if negb (validate_file_extension self file_path) then
        (fs, fail (MsgForbiddenExtension (PyPath.suffix file_path)))
      else
        match encode (c_content request) (c_encoding request) with
        | inl e => (fs, fail (MsgCreateError e))
        | inr bs =>
            let content_size := Z.of_nat (length bs) in
            if negb (validate_file_size self content_size) then
              (fs, fail (MsgSizeExceeded (max_file_size self)))
            else if Fs.exists_ fs file_path && negb (c_overwrite request) then
              (fs, fail MsgFileExists)
            else
              match path_mkdir fs (PyPath.parent file_path) true true with
              | Raised fs1 e => (fs1, fail (MsgCreateError e))
              | Returned fs1 _ =>
                  match write_text fs1 file_path (c_encoding request)
                                   (c_content request) with
                  | Raised fs2 e => (fs2, fail (MsgCreateError e))
                  | Returned fs2 _ =>
                      match written fs2 "create" file_path
                                    (c_content request) content_size with
                      | inl e => (fs2, fail (MsgCreateError e))
                      | inr result => (fs2, result)
                      end
                  end
              end
        end
  end.

(** [read_file]. *)
Definition read_file (fs : Fs.filesystem) (relative_path : string)
  : ServiceError + FileContent :=
  match get_safe_path self fs relative_path with
  | None => inl UnsafePathError
  | Some file_path =>
      if negb (can_read_file self fs file_path) then inl NoAccessError
      else
        match read_text fs file_path with
        | inl e => inl (ReadError e)
        | inr content =>
            match Codec.utf8_encode content with
            | None => inl (ReadError UnicodeEncodeError)
            | Some bs =>
                let file_size := Z.of_nat (length bs) in
                if negb (validate_file_size self file_size) then
                  inl (ReadError ValueError)
                else
                  match calculate_checksum content, relative_str file_path with
                  | None, _ => inl (ReadError UnicodeEncodeError)
                  | Some _, inl e => inl (ReadError e)
                  | Some checksum, inr rel =>
                      inr (mkContent rel content file_size
                                     (get_mime_type file_path) "utf-8"
                                     (Some checksum))
                  end
            end
        end
  end.

(** [update_file]. *)
Definition update_file (fs : Fs.filesystem) (relative_path : string)
           (request : FileUpdateRequest)
  : Fs.filesystem * FileOperationResult :=
  let fail := failure relative_path "update" in
  match get_safe_path self fs relative_path with
  | None => (fs, fail MsgUnsafePath)
  | Some file_path =>
      if negb (validate_file_extension self file_path) then
        (fs, fail (MsgForbiddenExtension (PyPath.suffix file_path)))
      else if negb (Fs.exists_ fs file_path)
              && negb (u_create_if_missing request) then
        (fs, fail MsgFileNotFound)
      else
        match (if negb (Fs.exists_ fs file_path)
               then path_mkdir fs (PyPath.parent file_path) true true
               else Returned fs tt) with
        | Raised fs1 e => (fs1, fail (MsgUpdateError e))
        | Returned fs1 _ =>
            match encode (u_content request) (u_encoding request) with
            | inl e => (fs1, fail (MsgUpdateError e))
            | inr bs =>
                let content_size := Z.of_nat (length bs) in
                if negb (validate_file_size self content_size) then
                  (fs1, fail (MsgSizeExceeded (max_file_size self)))
                else
                  match write_text fs1 file_path (u_encoding request)
                                   (u_content request) with
                  | Raised fs2 e => (fs2, fail (MsgUpdateError e))
                  | Returned fs2 _ =>
                      match written fs2 "update" file_path
                                    (u_content request) content_size with
                      | inl e => (fs2, fail (MsgUpdateError e))
                      | inr result => (fs2, result)
                      end
                  end
            end
        end
  end.

(** Lines 366-370: the success result of [delete_file]. *)
Definition deleted (fs : Fs.filesystem) (relative_path : string)
           (file_path : path) : Fs.filesystem * FileOperationResult :=
  match relative_str file_path with
  | inl e => (fs, failure relative_path "delete" (MsgDeleteError e))
  | inr rel => (fs, mkResult rel "delete" true None None None)
  end.

(** [delete_file]. *)
Definition delete_file (fs : Fs.filesystem) (relative_path : string)
  : Fs.filesystem * FileOperationResult :=
  let fail := failure relative_path "delete" in
  match get_safe_path self fs relative_path with
  | None => (fs, fail MsgUnsafePath)
  | Some file_path =>
      if negb (can_delete_file self fs file_path) then
        (fs, fail MsgNoDeleteRights)
      else if Fs.is_file fs file_path then
        match Fs.unlink fs file_path with
        | inl e => (fs, fail (MsgDeleteError (OSError e)))
        | inr fs' => deleted fs' relative_path file_path
        end
      else if Fs.is_dir fs file_path then
        match Fs.rmtree fs file_path with
        | inl e => (fs, fail (MsgDeleteError (OSError e)))
        | inr fs' => deleted fs' relative_path file_path
        end
      else (fs, fail MsgNotFound)
  end.

(** [st_size]. *)
Definition st_size (n : Fs.node) : Z :=
  match n with
  | Fs.File data => Z.of_nat (length data)
  | Fs.Dir => 0
  end.

(** The body of the loop of [list_directory] over the entries that are
    left: hidden names are skipped, the others are described and put at
    the end of [files] or of [directories]. *)
Fixpoint list_entries (fs : Fs.filesystem) (items : list path)
         (files directories : list FileInfo)
  : exn + (list FileInfo * list FileInfo) :=
  match items with
  | [] => inr (files, directories)
  | item :: rest =>
      if PyStr.startswith "." (PyPath.name item) then
        list_entries fs rest files directories
      else
        match relative_str item with
        | inl e => inl e
        | inr relative_item_path =>
            match Fs.stat fs item with
            | None => inl (OSError Fs.ENOENT)
            | Some stat =>
                let is_directory := Fs.is_dir fs item in
                let mime_type :=
                  if is_directory then None else get_mime_type item in
                let file_info :=
                  mkInfo (PyPath.name item) relative_item_path
                         (if is_directory then 0%Z else st_size stat)
                         (negb (Fs.access fs item))
                         is_directory mime_type
                         (if is_directory then None
                          else calculate_file_checksum fs item) in
                if is_directory then
                  list_entries fs rest files (directories ++ [file_info])
                else
                  list_entries fs rest (files ++ [file_info]) directories
            end
        end
  end.

(** The key of both sorts: [x.name.lower()]. *)
Definition sort_key (x : FileInfo) : string := PyStr.lower (name x).

(** [list.sort(key=..)]: the stable sort, as an insertion sort. *)
Fixpoint insert_sorted (x : FileInfo) (l : list FileInfo) : list FileInfo :=
  match l with
  | [] => [x]
  | y :: l' =>
      if String.leb (sort_key x) (sort_key y) then x :: l
      else y :: insert_sorted x l'
  end.

Definition sort_by_name (l : list FileInfo) : list FileInfo :=
  fold_right insert_sorted [] l.

(** [list_directory]. *)
Definition list_directory (fs : Fs.filesystem) (relative_path : string)
  : ServiceError + FileListResponse :=
  let arg := if String.eqb relative_path EmptyString then "." else relative_path in
  match get_safe_path self fs arg with
  | None => inl UnsafePathError
  | Some dir_path =>
      if negb (Fs.exists_ fs dir_path) then inl DirectoryNotFoundError
      else if negb (Fs.is_dir fs dir_path) then inl NotADirectoryError
      else
        match Fs.iterdir fs dir_path with
        | inl e => inl (ListError (OSError e))
        | inr items =>
            match list_entries fs items [] [] with
            | inl e => inl (ListError e)
            | inr (files0, directories0) =>
                let files := sort_by_name files0 in
                let directories := sort_by_name directories0 in
                match relative_str dir_path with
                | inl e => inl (ListError e)
                | inr rel =>
                    inr (mkList rel files directories
                           (Z.of_nat (length files)
                            + Z.of_nat (length directories)))
                end
            end
        end
  end.

(** [create_directory]. *)
Definition create_directory (fs : Fs.filesystem)
           (request : DirectoryCreateRequest)
  : Fs.filesystem * FileOperationResult :=
  let fail := failure (d_path request) "create_directory" in
  match get_safe_path self fs (d_path request) with
  | None => (fs, fail MsgUnsafePath)
  | Some dir_path =>
      match path_mkdir fs dir_path (d_recursive request) false with
      | Raised fs1 (OSError Fs.EEXIST) => (fs1, fail MsgDirectoryExists)
      | Raised fs1 e => (fs1, fail (MsgCreateDirectoryError e))
      | Returned fs1 _ =>
          match Fs.stat fs1 dir_path with
          | None => (fs1, fail (MsgCreateDirectoryError (OSError Fs.ENOENT)))
          | Some _ =>
              match relative_str dir_path with
              | inl e => (fs1, fail (MsgCreateDirectoryError e))
              | inr rel =>
                  (fs1, mkResult rel "create_directory" true None None None)
              end
          end
      end
  end.

(** [get_file_info]: nothing for an unsafe or a missing path, and nothing
    when an exception is caught. *)
Definition get_file_info (fs : Fs.filesystem) (relative_path : string)
  : option FileInfo :=
  match get_safe_path self fs relative_path with
  | None => None
  | Some file_path =>
      if negb (Fs.exists_ fs file_path) then None
      else
        match Fs.stat fs file_path with
        | None => None
        | Some stat =>
            let is_directory := Fs.is_dir fs file_path in
            let mime_type :=
              if is_directory then None else get_mime_type file_path in
            match relative_str file_path with
            | inl _ => None
            | inr rel =>
                Some (mkInfo (PyPath.name file_path) rel
                             (if is_directory then 0%Z else st_size stat)
                             (negb (Fs.access fs file_path))
                             is_directory mime_type
                             (if is_directory then None
                              else calculate_file_checksum fs file_path))
            end
        end
  end.

End Operations.

End Service.

(** ** config.py: the validators of [ServerConfig] *)

Module Config.

Import Service.

(** [validate_port]; [None] for its [ValueError]. *)
Definition validate_port (v : Z) : option Z :=
  if (1 <=? v)%Z && (v <=? 65535)%Z then Some v else None.

(** [validate_base_dir], for a path given from the root: a missing
    directory is made with its parents, anything else than a directory is
    refused with a [ValueError], and the resolved path is the value kept. *)
Definition validate_base_dir (fs : Fs.filesystem) (v : path) : run path :=
  let p := Fs.resolve fs v in
  if negb (Fs.exists_ fs p) then
    match path_mkdir fs p true true with
    | Returned fs' _ => Returned fs' p
    | Raised fs' e => Raised fs' e
    end
  else if negb (Fs.is_dir fs p) then Raised fs ValueError
  else Returned fs p.


End Config.

(** ** api.py: the batch endpoint *)

Module Api.

Import Security Service.

(** The ["data"] object of an operation: the fields the three request
    models read, each present or not. *)
Record Data : Type := mkData {
  data_path : option string;
  data_content : option text;
  data_overwrite : option bool;
  data_encoding : option string;
  data_create_if_missing : option bool;
  data_recursive : option bool
}.

Definition no_data : Data := mkData None None None None None None.

(** One entry of [request.operations]: the keys ["type"], ["path"] and
    ["data"], each present or not. *)
Record Operation : Type := mkOperation {
  op_type : option string;
  op_path : option string;
  op_data : option Data
}.

Record BatchOperationRequest : Type := mkBatch {
  operations : list Operation;
  continue_on_error : bool
}.

(** What the loop catches with [except Exception]. *)
Inductive BatchExn : Type :=
| ValidationError                          (* pydantic refused the data *)
| UnknownOperation (t : option string).    (* "Неизвестный тип операции: {t}" *)

(** The ["message"] and ["error"] values: what the result carried, or the
    text of the exception. *)
Inductive Note : Type :=
| FromResult (m : option Message)
| FromException (e : BatchExn).

Record ResultEntry : Type := mkEntry {
  e_path : string;
  e_type : option string;
  e_success : bool;
  e_message : Note
}.

Record ErrorEntry : Type := mkError {
  err_path : string;
  err_type : option string;
  err_error : Note
}.

Record BatchOperationResponse : Type := mkResponse {
  total_operations : Z;
  successful_operations : Z;
  failed_operations : Z;
  results : list ResultEntry;
  errors : list ErrorEntry
}.

(** [sub in s]. *)
Fixpoint contains (sub s : string) : bool :=
  PyStr.startswith sub s
  || match s with
     | EmptyString => false
     | String _ r => contains sub r
     end.

(** The [validate_path] validator of the two request models with a
    path. *)
Definition validate_path (v : string) : option string :=
  if String.eqb v EmptyString || String.eqb (PyStr.strip v) EmptyString then None
  else if PyStr.startswith "/" v || PyStr.startswith "\" v then None
  else if contains ".." v then None
  else Some (PyStr.strip v).

(** The [FileCreateRequest] built from the data. *)
Definition make_create_request (d : Data) : BatchExn + FileCreateRequest :=
  match data_path d with
  | None => inl ValidationError
  | Some v =>
      match validate_path v with
      | None => inl ValidationError
      | Some p =>
          inr (mkCreate p (default [] (data_content d))
                        (default false (data_overwrite d))
                        (default "utf-8" (data_encoding d)))
      end
  end.

(** The [FileUpdateRequest] built from the data. *)
Definition make_update_request (d : Data) : BatchExn + FileUpdateRequest :=
  match data_content d with
  | None => inl ValidationError
  | Some c =>
      inr (mkUpdate c (default "utf-8" (data_encoding d))
                    (default false (data_create_if_missing d)))
  end.

(** The [DirectoryCreateRequest] built from the data. *)
Definition make_directory_request (d : Data)
  : BatchExn + DirectoryCreateRequest :=
  match data_path d with
  | None => inl ValidationError
  | Some v =>
      match validate_path v with
      | None => inl ValidationError
      | Some p => inr (mkDirCreate p (default true (data_recursive d)))
      end
  end.

Section Batch.

Context `{Platform}.
Variable sm : SecurityManager.

Definition is_type (operation : Operation) (t : string) : bool :=
  match op_type operation with
  | Some s => String.eqb s t
  | None => false
  end.

(** Lines 338-350: the call the type of the operation selects. *)
Definition dispatch (fs : Fs.filesystem) (operation : Operation)
  : BatchExn + (Fs.filesystem * FileOperationResult) :=
  let path := default EmptyString (op_path operation) in
  let data := default no_data (op_data operation) in
  if is_type operation "create_file" then
    match make_create_request data with
    | inl e => inl e
    | inr create_request => inr (create_file sm fs create_request)
    end
  else if is_type operation "update_file" then
    match make_update_request data with
    | inl e => inl e
    | inr update_request => inr (update_file sm fs path update_request)
    end
  else if is_type operation "delete" then
    inr (delete_file sm fs path)
  else if is_type operation "create_directory" then
    match make_directory_request data with
    | inl e => inl e
    | inr dir_request => inr (create_directory sm fs dir_request)
    end
  else inl (UnknownOperation (op_type operation)).

(** The local variables of [batch_operations]. *)
Record Acc : Type := mkAcc {
  acc_results : list ResultEntry;
  acc_errors : list ErrorEntry;
  acc_successful : Z
}.

(** The [for] loop over the operations that are left. *)
Fixpoint batch_loop (fs : Fs.filesystem) (ops : list Operation)
         (continue : bool) (acc : Acc) : Fs.filesystem * Acc :=
  match ops with
  | [] => (fs, acc)
  | operation :: rest =>
      let path := default EmptyString (op_path operation) in
      let type := op_type operation in
      match dispatch fs operation with
      | inr (fs', result) =>
          let results' :=
            acc_results acc
              ++ [mkEntry path type (r_success result)
                          (FromResult (r_message result))] in
          if r_success result then
            batch_loop fs' rest continue
              (mkAcc results' (acc_errors acc) (acc_successful acc + 1))
          else
            let errors' :=
              acc_errors acc
                ++ [mkError path type (FromResult (r_message result))] in
            let acc' := mkAcc results' errors' (acc_successful acc) in
            if negb continue then (fs', acc')
            else batch_loop fs' rest continue acc'
      | inl e =>
          let errors' :=
            acc_errors acc ++ [mkError path type (FromException e)] in
          let results' :=
            acc_results acc
              ++ [mkEntry path type false (FromException e)] in
          let acc' := mkAcc results' errors' (acc_successful acc) in
          if negb continue then (fs, acc')
          else batch_loop fs rest continue acc'
      end
  end.

(** [batch_operations]. *)
Definition batch_operations (fs : Fs.filesystem)
           (request : BatchOperationRequest)
  : Fs.filesystem * BatchOperationResponse :=
  let '(fs', acc) :=
    batch_loop fs (operations request) (continue_on_error request)
               (mkAcc [] [] 0) in
  let total := Z.of_nat (length (operations request)) in
  (fs', mkResponse total (acc_successful acc)
                   (total - acc_successful acc)
                   (acc_results acc) (acc_errors acc)).

End Batch.

End Api.

(** ** api.py: the endpoints that read

    Each endpoint calls the service and turns what it raises into an
    [HTTPException]; the status is chosen by the first [except] clause the
    class of the exception fits. *)

Module Endpoints.

Import Security Service.

(** The classes the [except] clauses name.  [IOError] is [OSError], of
    which [PermissionError] and [FileNotFoundError] are kinds. *)
Inductive ExceptionClass : Type :=
| PyValueError
| PyPermissionError
| PyFileNotFoundError
| PyIOError.

(** The class of each exception [read_file] and [list_directory] raise. *)
Definition class_of (e : ServiceError) : ExceptionClass :=
  match e with
  | UnsafePathError => PyValueError
  | NoAccessError => PyPermissionError
  | DirectoryNotFoundError => PyFileNotFoundError
  | NotADirectoryError => PyValueError
  | ReadError _ => PyIOError
  | ListError _ => PyIOError
  end.

(** The [detail] of an [HTTPException]. *)
Inductive Detail : Type :=
| DetailOf (e : ServiceError)                    (* str(e) *)
| DetailFileNotFound (relative_path : string).   (* "Файл не найден: {path}" *)

Record HTTPException : Type := mkHTTPException {
  status_code : Z;
  detail : Detail
}.

Section Routes.

Context `{Platform}.
Variable service : SecurityManager.

(** [GET /files/{path}]. *)
Definition read_file (fs : Fs.filesystem) (relative_path : string)
  : HTTPException + FileContent :=
  match Service.read_file service fs relative_path with
  | inr content => inr content
  | inl e =>
      inl (mkHTTPException
             match class_of e with
             | PyValueError => 400
             | PyPermissionError => 403
             | PyFileNotFoundError => 404
             | PyIOError => 500
             end%Z
             (DetailOf e))
  end.

(** [GET /files?dir=..]. *)
Definition list_files (fs : Fs.filesystem) (dir : string)
  : HTTPException + FileListResponse :=
  match Service.list_directory service fs dir with
  | inr listing => inr listing
  | inl e =>
      inl (mkHTTPException
             match class_of e with
             | PyValueError => 400
             | PyFileNotFoundError => 404
             | PyPermissionError | PyIOError => 500
             end%Z
             (DetailOf e))
  end.

(** [GET /files/{path}/info]. *)
Definition get_file_info (fs : Fs.filesystem) (relative_path : string)
  : HTTPException + FileInfo :=
  match Service.get_file_info service fs relative_path with
  | Some file_info => inr file_info
  | None => inl (mkHTTPException 404 (DetailFileNotFound relative_path))
  end.

End Routes.

End Endpoints.

(** ** service.py: the watcher's event handler *)

Module Watch.

Import Service.

(** A watchdog event: its paths are absolute, below the watched
    directory. *)
Record Event : Type := mkEvent {
  src_path : path;
  dest_path : path;
  ev_is_directory : bool
}.

Record WatchEvent : Type := mkWatchEvent {
  event_type : string;
  w_path : path;
  w_is_directory : bool;
  old_path : option path;
  file_size : option Z
}.

(** The handler after [__init__]: the resolved base directory. *)
Record Handler : Type := mkHandler { base_dir : path }.

Section Handlers.

Variable self : Handler.

(** [_should_process_event]. *)
Definition _should_process_event (fs : Fs.filesystem) (event : Event) : bool :=
  let p := Fs.resolve fs (src_path event) in
  match PyPath.relative_to p (base_dir self) with
  | Some _ => negb (existsb (PyStr.startswith ".") (PyPath.parts p))
  | None => false
  end.

(** The four handlers: the [WatchEvent] handed to
    [_notify_watch_event], if any. *)
Definition on_created (fs : Fs.filesystem) (event : Event) : option WatchEvent :=
  if _should_process_event fs event then
    Some (mkWatchEvent "created" (src_path event) (ev_is_directory event)
                       None None)
  else None.

Definition on_modified (fs : Fs.filesystem) (event : Event) : option WatchEvent :=
  if _should_process_event fs event && negb (ev_is_directory event) then
    Some (mkWatchEvent "modified" (src_path event) false None
                       (option_map st_size (Fs.stat fs (src_path event))))
  else None.

Definition on_deleted (fs : Fs.filesystem) (event : Event) : option WatchEvent :=
  if _should_process_event fs event then
    Some (mkWatchEvent "deleted" (src_path event) (ev_is_directory event)
                       None None)
  else None.

Definition on_moved (fs : Fs.filesystem) (event : Event) : option WatchEvent :=
  if _should_process_event fs event then
    Some (mkWatchEvent "moved" (dest_path event) (ev_is_directory event)
                       (Some (src_path event)) None)
  else None.

End Handlers.

End Watch.

(** ** The words of the specification

    Predicates the statements below use for what the specification says:
    containment, hidden names, the kinds of failure of its section on errors,
    and the shape of a batch response and of a listing. *)

Module Spec.

Import Service Api.

(** [p] is [root] or lies below it. *)
Definition within (root p : path) : Prop := ∃ rel, p = root ++ rel.

(** The name begins with a dot. *)
Definition hidden (seg : string) : Prop := PyStr.startswith "." seg = true.

(** The name does not begin with a dot. *)
Definition visible (n : string) : Prop := PyStr.startswith "." n = false.


(** [fs'] is [fs] with, at most, directories added where nothing was: no
    file and no link has changed. *)
Definition only_new_directories (fs fs' : Fs.filesystem) : Prop :=
  Fs.links fs' = Fs.links fs
  ∧ ∀ loc, Fs.lookup_node fs' loc = Fs.lookup_node fs loc
           ∨ (Fs.lookup_node fs loc = None
              ∧ Fs.lookup_node fs' loc = Some Fs.Dir).

(** A tree without symbolic links in which every directory above [root]
    is there. *)
Definition plain_tree (root : path) (fs : Fs.filesystem) : Prop :=
  Fs.links fs = ∅
  ∧ ∀ above rest, root = above ++ rest → rest ≠ [] →
                  Fs.lookup_node fs above = Some Fs.Dir.

(** [fs'] has the links of [fs] and, at every place that is not [root] or
    below it, the node of [fs]. *)
Definition same_outside (root : path) (fs fs' : Fs.filesystem) : Prop :=
  Fs.links fs' = Fs.links fs
  ∧ ∀ q, ¬ within root q → Fs.nodes fs' !! q = Fs.nodes fs !! q.

(** The kinds of failure the specification tells apart. *)
Inductive ErrorKind : Type :=
| UnsafePath
| Forbidden
| NotFound
| AlreadyExists
| ExtensionRejected
| SizeExceeded
| IoFailure.

(** The kind each message of the service names; the messages built from a
    caught exception are the unclassified kind. *)
Definition kind_of (m : Message) : ErrorKind :=
  match m with
  | MsgUnsafePath => UnsafePath
  | MsgForbiddenExtension _ => ExtensionRejected
  | MsgSizeExceeded _ => SizeExceeded
  | MsgFileExists => AlreadyExists
  | MsgCreateError _ => IoFailure
  | MsgFileNotFound => NotFound
  | MsgUpdateError _ => IoFailure
  | MsgNoDeleteRights => Forbidden
  | MsgNotFound => NotFound
  | MsgDeleteError _ => IoFailure
  | MsgDirectoryExists => AlreadyExists
  | MsgCreateDirectoryError _ => IoFailure
  end.


(** The entry of the errors list a failed result entry stands for. *)
Definition error_of (e : ResultEntry) : ErrorEntry :=
  mkError (e_path e) (e_type e) (e_message e).

Definition failed (e : ResultEntry) : Prop := e_success e = false.

Definition succeeded (e : ResultEntry) : Prop := e_success e = true.

(** The entry reports the path and the type of the operation. *)
Definition reports (operation : Operation) (e : ResultEntry) : Prop :=
  e_path e = default EmptyString (op_path operation)
  ∧ e_type e = op_type operation.

#[global] Instance visible_dec n : Decision (visible n).
Proof. unfold visible. apply _. Defined.

#[global] Instance failed_dec e : Decision (failed e).
Proof. unfold failed. apply _. Defined.

#[global] Instance succeeded_dec e : Decision (succeeded e).
Proof. unfold succeeded. apply _. Defined.

End Spec.

(** ** A server to run the examples on *)

Module Sample.

Import Security Service Api.

(** A few lines of the table of [mimetypes]. *)
Definition mime_of (url : string) : option string :=
  let ext := PyStr.lower (PyPath.suffix (PyPath.segments url)) in
  if String.eqb ext ".txt" then Some "text/plain"
  else if String.eqb ext ".json" then Some "application/json"
  else if String.eqb ext ".md" then Some "text/markdown"
  else None.

(** [s.encode('latin-1')]. *)
Definition latin1_encode (s : text) : option (list Z) :=
  if forallb (fun c => (0 <=? c)%Z && (c <? 256)%Z) s then Some s else None.

Definition platform : Platform :=
  {| sha256_hexdigest := Sha256.hexdigest;
     guess_type := mime_of;
     other_encoder := fun n =>
       if String.eqb (PyStr.lower n) "latin-1" then Some latin1_encode else None |}.

(** Only the directory [/data]. *)
Definition tree : Fs.filesystem :=
  Fs.mkfs {[ ["data"] := Fs.Dir ]} ∅.


(** [/data] with two files, a hidden file and a directory that holds a
    file. *)
Definition tree_listing : Fs.filesystem :=
  Fs.mkfs {[ ["data"] := Fs.Dir;
             ["data"; "b.txt"] := Fs.File (Codec.of_string "bee");
             ["data"; "A.md"] := Fs.File (Codec.of_string "# a");
             ["data"; ".hidden"] := Fs.File [];
             ["data"; "sub"] := Fs.Dir;
             ["data"; "sub"; "deep.txt"] := Fs.File [] ]} ∅.

(** The default configuration with [/data] as base directory. *)
Definition config : ServerConfig :=
  {| cfg_base_dir := ["data"];
     cfg_max_file_size := 10 * 1024 * 1024;
     cfg_allowed_extensions := [];
     cfg_blocked_paths :=
       [["etc"]; ["sys"]; ["proc"]; ["boot"]; ["usr"; "bin"]; ["bin"]; ["sbin"]] |}.

Definition manager : SecurityManager := Security.init tree config.

(** The same with the allow-list [txt]. *)
Definition manager_txt : SecurityManager :=
  Security.init tree
    {| cfg_base_dir := ["data"];
       cfg_max_file_size := 10 * 1024 * 1024;
       cfg_allowed_extensions := ["TXT"];
       cfg_blocked_paths := cfg_blocked_paths config |}.

Definition delete_op (p : string) : Operation :=
  mkOperation (Some "delete") (Some p) None.

Definition create_op (p : string) (content : string) : Operation :=
  mkOperation (Some "create_file") None
    (Some (mkData (Some p) (Some (Codec.of_string content)) None None None None)).

End Sample.

(** * Proofs *)

Import Security Service Api Spec.

(** ** Paths: containment, and what stripping leaves of a candidate *)

Section PathFacts.

Lemma relative_to_Some (p base rel : path) :
  PyPath.relative_to p base = Some rel ↔ p = base ++ rel.
Proof.
  revert p; induction base as [|b base IH]; intros p.
  - destruct p; simpl; (split; [intros [= ->]; done | intros ->; done]).
  - destruct p as [|x p]; simpl; [split; [done | intros [=]] |].
    destruct (String.eqb_spec b x) as [->|Hne].
    + rewrite IH. split; [intros ->; done | intros [= ->]; done].
    + split; [done | intros [= ? ?]; done].
Qed.

Lemma is_relative_to_within (p base : path) :
  PyPath.is_relative_to p base = true ↔ Spec.within base p.
Proof.
  unfold PyPath.is_relative_to, Spec.within.
  destruct (PyPath.relative_to p base) as [rel|] eqn:E.
  - apply relative_to_Some in E. split; [eauto | done].
  - split; [done | intros [rel Hrel]].
    apply relative_to_Some in Hrel. congruence.
Qed.

Lemma existsb_false_Forall {A} (f : A → bool) (l : list A) :
  existsb f l = false ↔ Forall (λ x, f x = false) l.
Proof.
  induction l as [|x l IH]; simpl; [split; [constructor | done] |].
  rewrite orb_false_iff, IH, Forall_cons. done.
Qed.

End PathFacts.

Section SplitFacts.

Variable p : ascii → bool.
Hypothesis p_dot : p "."%char = false.
Hypothesis p_slash : p "/"%char = false.









End SplitFacts.




Lemma is_path_safe_dotdot (self : SecurityManager) (fs : Fs.filesystem) (p : path) :
  ".." ∈ p → is_path_safe self fs p = false.
Proof.
  intros Hin. unfold is_path_safe.
  destruct (PyPath.relative_to _ _); [|done].
  replace (existsb (String.eqb "..") (PyPath.parts p)) with true; [done |].
  symmetry. apply existsb_exists. exists "..". split; [|apply String.eqb_refl].
  apply list_elem_of_In. unfold PyPath.parts. by apply elem_of_cons; right.
Qed.



(** ** [is_path_safe] and [get_safe_path] *)

(** C1.  [is_path_safe] answers yes exactly when the canonical path is the
    base directory or lies below it (what [relative_to] accepts) with no name
    below the base beginning with a dot, the path as given has no [".."]
    part, and the canonical path is neither a blocked path nor below one. *)
Theorem is_path_safe_iff (self : SecurityManager) (fs : Fs.filesystem) (p : path) :
  is_path_safe self fs p = true ↔
    (∃ rel, Fs.resolve fs p = base_dir self ++ rel
            ∧ Forall (λ seg, ¬ Spec.hidden seg) rel)
    ∧ (".." ∉ PyPath.parts p)
    ∧ (∀ blocked, blocked ∈ _blocked_paths_set self →
                  ¬ Spec.within blocked (Fs.resolve fs p)).
Proof.
  unfold is_path_safe.
  destruct (PyPath.relative_to (Fs.resolve fs p) (base_dir self)) as [rel|] eqn:Erel.
  - apply relative_to_Some in Erel.
    destruct (existsb (String.eqb "..") (PyPath.parts p)) eqn:Edd.
    { split; [done | intros (_ & Hdd & _)]. exfalso; apply Hdd.
      apply existsb_exists in Edd as (x & Hx & Heq).
      apply String.eqb_eq in Heq as <-. by apply list_elem_of_In. }
    destruct (existsb _ (elements (_blocked_paths_set self))) eqn:Ebl.
    { split; [done | intros (_ & _ & Hbl)]. exfalso.
      apply existsb_exists in Ebl as (b & Hb & Hrel).
      apply (Hbl b); [apply elem_of_elements, list_elem_of_In, Hb |].
      by apply is_relative_to_within. }
    destruct (existsb (PyStr.startswith ".") rel) eqn:Ehid.
    { split; [done | intros ((rel' & Hrel' & Hall) & _)]. exfalso.
      rewrite Erel in Hrel'. apply app_inv_head in Hrel' as <-.
      apply existsb_exists in Ehid as (x & Hx & Hdot).
      rewrite Forall_forall in Hall. apply (Hall x); [by apply list_elem_of_In | done]. }
    split; [intros _ | done]. split; [|split].
    + exists rel. split; [done |].
      apply existsb_false_Forall in Ehid.
      eapply Forall_impl; [exact Ehid |]. unfold Spec.hidden. intros x Hx. congruence.
    + intros Hin. apply existsb_false_Forall in Edd.
      rewrite Forall_forall in Edd. specialize (Edd _ Hin).
      by rewrite String.eqb_refl in Edd.
    + intros b Hb Hw. apply existsb_false_Forall in Ebl.
      rewrite Forall_forall in Ebl.
      apply elem_of_elements in Hb. specialize (Ebl _ Hb). simpl in Ebl.
      apply is_relative_to_within in Hw. congruence.
  - split; [done | intros ((rel & Hrel & _) & _)].
    apply relative_to_Some in Hrel. congruence.
Qed.

(** The base directory itself is safe; a link that leaves it is not, and
    neither is a hidden name. *)
Example is_path_safe_examples :
  let fs := Fs.mkfs {[ ["data"] := Fs.Dir ]} {[ ["data"; "out"] := ["etc"] ]} in
  is_path_safe Sample.manager fs ["data"] = true
  ∧ is_path_safe Sample.manager fs ["data"; "notes"; "todo.txt"] = true
  ∧ is_path_safe Sample.manager fs ["data"; "out"; "passwd"] = false
  ∧ is_path_safe Sample.manager fs ["data"; ".git"; "config"] = false
  ∧ is_path_safe Sample.manager fs ["data"; "a"; ".."; "b"] = false.
Proof. vm_compute. done. Qed.




(** ** The watcher's filter *)

(** C10.  The watcher keeps an event exactly when its resolved path is the
    base directory or below it and no part of the whole resolved path, the
    names above the base included, begins with a dot; so with a hidden name
    anywhere in the base directory every event is dropped and no handler
    builds a [WatchEvent]. *)
Theorem should_process_event_iff
        (self : Watch.Handler) (fs : Fs.filesystem) (event : Watch.Event) :
  let resolved := Fs.resolve fs (Watch.src_path event) in
  (Watch._should_process_event self fs event = true ↔
     Spec.within (Watch.base_dir self) resolved
     ∧ Forall (λ part, ¬ Spec.hidden part) (PyPath.parts resolved))
  ∧ (Exists Spec.hidden (Watch.base_dir self) →
     Watch._should_process_event self fs event = false
     ∧ Watch.on_created self fs event = None
     ∧ Watch.on_modified self fs event = None
     ∧ Watch.on_deleted self fs event = None
     ∧ Watch.on_moved self fs event = None).
Proof.
  intros resolved.
  assert (Hiff : Watch._should_process_event self fs event = true ↔
     Spec.within (Watch.base_dir self) resolved
     ∧ Forall (λ part, ¬ Spec.hidden part) (PyPath.parts resolved)).
  { unfold Watch._should_process_event. fold resolved.
    destruct (PyPath.relative_to resolved (Watch.base_dir self)) as [rel|] eqn:Erel.
    - apply relative_to_Some in Erel. rewrite negb_true_iff, existsb_false_Forall.
      split.
      + intros Hall. split; [by exists rel |].
        eapply Forall_impl; [exact Hall |]. unfold Spec.hidden. intros x Hx. congruence.
      + intros [_ Hall]. eapply Forall_impl; [exact Hall |].
        unfold Spec.hidden. intros x Hx. by destruct (PyStr.startswith "." x).
    - split; [done | intros [[rel Hrel] _]].
      apply relative_to_Some in Hrel. congruence. }
  split; [exact Hiff |].
  intros Hroot.
  assert (Hno : Watch._should_process_event self fs event = false).
  { destruct (Watch._should_process_event self fs event) eqn:E; [|done].
    exfalso. destruct (proj1 Hiff eq_refl) as [[rel Hrel] Hall].
    apply Exists_exists in Hroot as (seg & Hseg & Hhid).
    rewrite Forall_forall in Hall. apply (Hall seg); [|done].
    unfold PyPath.parts. rewrite Hrel, elem_of_cons, elem_of_app. auto. }
  unfold Watch.on_created, Watch.on_modified, Watch.on_deleted, Watch.on_moved.
  rewrite Hno. done.
Qed.

(** A base directory below a hidden directory: nothing passes the filter. *)
Example watcher_below_hidden_directory :
  let handler := Watch.mkHandler ["home"; ".cache"; "data"] in
  let event := Watch.mkEvent ["home"; ".cache"; "data"; "a.txt"] [] false in
  Watch._should_process_event handler Sample.tree event = false
  ∧ Watch.on_created handler Sample.tree event = None
  ∧ Watch._should_process_event (Watch.mkHandler ["data"]) Sample.tree
      (Watch.mkEvent ["data"; "a.txt"] [] false) = true.
Proof. vm_compute. done. Qed.

(** ** Text: UTF-8, newlines and the digest *)

Ltac solve_cmp :=
  repeat match goal with
  | |- context [(?a <=? ?b)%Z] =>
      destruct (Z.leb_spec a b); try (exfalso; Z.div_mod_to_equations; lia)
  | |- context [(?a <? ?b)%Z] =>
      destruct (Z.ltb_spec a b); try (exfalso; Z.div_mod_to_equations; lia)
  end.

Lemma utf8_decode_encode_cp (c : Z) (bs rest : list Z) :
  Codec.utf8_encode_cp c = Some bs →
  Codec.utf8_decode (bs ++ rest) = option_map (cons c) (Codec.utf8_decode rest).
Proof.
  unfold Codec.utf8_encode_cp, Codec.is_surrogate.
  destruct (Z.ltb_spec c 0); [done |].
  destruct (Z.ltb_spec c 128).
  { intros [= <-]. cbn [app Codec.utf8_decode]. solve_cmp. done. }
  destruct (Z.ltb_spec c 2048).
  { intros [= <-]. cbn [app Codec.utf8_decode]. unfold Codec.is_cont.
    solve_cmp. cbn [andb]. do 2 f_equal. Z.div_mod_to_equations; lia. }
  destruct (Z.ltb_spec c 65536).
  { destruct (Z.leb_spec 55296 c); destruct (Z.leb_spec c 57343); cbn [andb]; try done;
      intros [= <-]; cbn [app Codec.utf8_decode]; unfold Codec.is_cont, Codec.is_surrogate;
      solve_cmp; cbn [andb negb]; do 2 f_equal; Z.div_mod_to_equations; lia. }
  destruct (Z.ltb_spec c 1114112); [|done].
  intros [= <-]. cbn [app Codec.utf8_decode]. unfold Codec.is_cont.
  solve_cmp. cbn [andb]. do 2 f_equal. Z.div_mod_to_equations; lia.
Qed.

Lemma utf8_decode_encode (s : text) (bs : list Z) :
  Codec.utf8_encode s = Some bs → Codec.utf8_decode bs = Some s.
Proof.
  revert bs; induction s as [|c s IH]; intros bs; simpl.
  - by intros [= <-].
  - destruct (Codec.utf8_encode_cp c) as [b|] eqn:Ecp; [|done].
    destruct (Codec.utf8_encode s) as [rest|]; [|done].
    intros [= <-]. rewrite (utf8_decode_encode_cp c b rest Ecp).
    by rewrite (IH rest eq_refl).
Qed.

Lemma universal_newlines_id (s : text) :
  Codec.CR ∉ s → Codec.universal_newlines s = s.
Proof.
  induction s as [|c s IH]; [done |].
  rewrite not_elem_of_cons. intros [Hc Hs]. simpl.
  destruct (Z.eqb_spec c Codec.CR); [congruence |]. by rewrite IH.
Qed.

(** The digest agrees with [hashlib] on the empty message, on a short one
    and on one of two blocks. *)
Example sha256_vectors :
  Sha256.hexdigest []
  = "e3b0c44298fc1c149afbf4c8996fb92427ae41e4649b934ca495991b7852b855"
  ∧ Sha256.hexdigest (Codec.of_string "abc")
    = "ba7816bf8f01cfea414140de5dae2223b00361a396177a9cb410ff61f20015ad"
  ∧ Sha256.hexdigest (repeat 97%Z 70)
    = "6bd5e5034855a11241f0dee8fc72850ffd9955b28347a86428b5fa19119f6ad0".
Proof. vm_compute. done. Qed.

(** ** The file tree: what creating nodes changes and what it leaves *)

Section FsFacts.

Implicit Types (fs : Fs.filesystem) (p loc : path).

Lemma step_links fs fs' cur c :
  Fs.links fs' = Fs.links fs → Fs.step fs' cur c = Fs.step fs cur c.
Proof. intros Hl. unfold Fs.step. by rewrite Hl. Qed.

Lemma resolve_links fs fs' p :
  Fs.links fs' = Fs.links fs → Fs.resolve fs' p = Fs.resolve fs p.
Proof.
  intros Hl. unfold Fs.resolve. generalize (@nil string).
  induction p as [|c p IH]; intros cur; simpl; [done |].
  by rewrite IH, (step_links fs fs').
Qed.

Lemma locate_links fs fs' p :
  Fs.links fs' = Fs.links fs → Fs.locate fs' p = Fs.locate fs p.
Proof.
  intros Hl. unfold Fs.locate. by rewrite !(resolve_links fs fs').
Qed.

Lemma links_set_node fs loc n : Fs.links (Fs.set_node fs loc n) = Fs.links fs.
Proof. done. Qed.

Lemma os_mkdir_inv fs p fs' :
  Fs.os_mkdir fs p = inr fs' →
  fs' = Fs.set_node fs (Fs.locate fs p) Fs.Dir
  ∧ Fs.occupied fs (Fs.locate fs p) = false
  ∧ Fs.lookup_node fs (PyPath.parent (Fs.locate fs p)) = Some Fs.Dir.
Proof.
  unfold Fs.os_mkdir. destruct (Fs.occupied fs _); [done |].
  destruct (Fs.lookup_node fs _) as [[|]|]; try done. by intros [= <-].
Qed.

Lemma os_mkdir_links fs p fs' :
  Fs.os_mkdir fs p = inr fs' → Fs.links fs' = Fs.links fs.
Proof. intros (-> & _)%os_mkdir_inv. done. Qed.

Lemma mkdir_once_links fs p exist_ok fs' :
  Fs.mkdir_once fs p exist_ok = inr fs' → Fs.links fs' = Fs.links fs.
Proof.
  unfold Fs.mkdir_once. destruct (Fs.os_mkdir fs p) as [e|fs1] eqn:E.
  - destruct e; try done; destruct (_ || _); try done; by intros [= <-].
  - intros [= <-]. by eapply os_mkdir_links.
Qed.

Lemma mkdir_rev_links fs rp parents exist_ok :
  Fs.links (Fs.mkdir_rev fs rp parents exist_ok).1 = Fs.links fs.
Proof.
  revert fs parents exist_ok.
  induction rp as [|c rp IH]; intros fs parents exist_ok; simpl.
  - destruct (Fs.os_mkdir fs []) as [e|fs1] eqn:E.
    + destruct e; try done; by destruct (_ || _).
    + by eapply os_mkdir_links.
  - destruct (Fs.os_mkdir fs _) as [e|fs1] eqn:E.
    + destruct e; try (by destruct (_ || _)).
      destruct parents; [|done].
      specialize (IH fs true true).
      destruct (Fs.mkdir_rev fs rp true true) as [fs1 [e|]]; [done |].
      destruct (Fs.mkdir_once fs1 _ exist_ok) as [e|fs2] eqn:E2; [done |].
      simpl in *. rewrite <- IH. by eapply mkdir_once_links.
    + by eapply os_mkdir_links.
Qed.

Lemma mkdir_links fs p parents exist_ok :
  Fs.links (Fs.mkdir fs p parents exist_ok).1 = Fs.links fs.
Proof. apply mkdir_rev_links. Qed.

Lemma write_bytes_inv fs p data fs' :
  Fs.write_bytes fs p data = inr fs' →
  fs' = Fs.set_node fs (Fs.resolve fs p) (Fs.File data)
  ∧ Fs.resolve fs p ≠ [].
Proof.
  unfold Fs.write_bytes.
  destruct (Fs.resolve fs p) as [|c loc] eqn:Eloc; [done |].
  destruct (Fs.lookup_node fs (c :: loc)) as [[|]|].
  - by intros [= <-].
  - done.
  - destruct (Fs.lookup_node fs _) as [[|]|]; try done. by intros [= <-].
Qed.

Lemma stat_set_node fs p n :
  Fs.resolve fs p ≠ [] →
  Fs.stat (Fs.set_node fs (Fs.resolve fs p) n) p = Some n.
Proof.
  intros Hne. unfold Fs.stat.
  rewrite (resolve_links fs (Fs.set_node fs (Fs.resolve fs p) n)) by done.
  unfold Fs.lookup_node. destruct (Fs.resolve fs p) eqn:E; [done |].
  simpl. apply lookup_insert_eq.
Qed.

Lemma write_bytes_stat fs p data fs' :
  Fs.write_bytes fs p data = inr fs' →
  Fs.links fs' = Fs.links fs ∧ Fs.stat fs' p = Some (Fs.File data).
Proof.
  intros (-> & Hne)%write_bytes_inv. split; [done |]. by apply stat_set_node.
Qed.

End FsFacts.

Section SafetyFacts.

Context `{Platform}.
Variable self : SecurityManager.

Lemma is_path_safe_links fs fs' p :
  Fs.links fs' = Fs.links fs → is_path_safe self fs' p = is_path_safe self fs p.
Proof. intros Hl. unfold is_path_safe. by rewrite (resolve_links fs fs'). Qed.

Lemma get_safe_path_links fs fs' s :
  Fs.links fs' = Fs.links fs → get_safe_path self fs' s = get_safe_path self fs s.
Proof. intros Hl. unfold get_safe_path. by rewrite (is_path_safe_links fs fs'). Qed.

Lemma get_safe_path_Some fs s p :
  get_safe_path self fs s = Some p →
  p = PyPath.joinpath (base_dir self) (clean_path s) ∧ is_path_safe self fs p = true.
Proof.
  unfold get_safe_path. destruct (is_path_safe _ _ _) eqn:E; [|done].
  by intros [= <-].
Qed.

End SafetyFacts.

Section MkdirFacts.

Implicit Types (fs : Fs.filesystem) (p loc : path).

Lemma resolve_snoc fs p c :
  Fs.resolve fs (p ++ [c]) = Fs.step fs (Fs.resolve fs p) c.
Proof. unfold Fs.resolve. by rewrite fold_left_app. Qed.

Lemma locate_snoc fs p c :
  Fs.locate fs (p ++ [c]) =
    if String.eqb c ".." then Fs.resolve fs (p ++ [c]) else Fs.resolve fs p ++ [c].
Proof.
  unfold Fs.locate, PyPath.name, PyPath.parent.
  rewrite last_last, removelast_last. by destruct p.
Qed.

Lemma resolve_eq_locate fs p :
  Fs.is_link fs (Fs.locate fs p) = false → Fs.resolve fs p = Fs.locate fs p.
Proof.
  destruct p as [|c p _] using rev_ind; [done |].
  rewrite locate_snoc. destruct (String.eqb c "..") eqn:Ec; [done |].
  rewrite resolve_snoc. unfold Fs.step, Fs.is_link. rewrite Ec.
  by destruct (Fs.links fs !! _).
Qed.

Lemma occupied_false fs loc :
  Fs.occupied fs loc = false →
  Fs.is_link fs loc = false ∧ Fs.lookup_node fs loc = None.
Proof.
  unfold Fs.occupied. rewrite orb_false_iff. intros [Hl Hn].
  split; [done |]. by destruct (Fs.lookup_node fs loc).
Qed.

Lemma lookup_node_set fs loc n :
  loc ≠ [] → Fs.lookup_node (Fs.set_node fs loc n) loc = Some n.
Proof. destruct loc; [done |]. intros _. simpl. apply lookup_insert_eq. Qed.

Lemma lookup_node_set_ne fs loc loc' n :
  loc ≠ loc' → Fs.lookup_node (Fs.set_node fs loc n) loc' = Fs.lookup_node fs loc'.
Proof. destruct loc'; [done |]. intros Hne. simpl. by apply lookup_insert_ne. Qed.

Lemma os_mkdir_is_dir fs p fs' :
  Fs.os_mkdir fs p = inr fs' → Fs.is_dir fs' p = true.
Proof.
  intros (-> & Hocc & _)%os_mkdir_inv.
  apply occupied_false in Hocc as [Hlink Hnone].
  unfold Fs.is_dir, Fs.stat.
  rewrite (resolve_links fs (Fs.set_node fs (Fs.locate fs p) Fs.Dir)) by done.
  rewrite (resolve_eq_locate _ _ Hlink).
  rewrite lookup_node_set; [done |]. by intros E; rewrite E in Hnone.
Qed.

Lemma mkdir_once_is_dir fs p exist_ok fs' :
  Fs.mkdir_once fs p exist_ok = inr fs' → Fs.is_dir fs' p = true.
Proof.
  unfold Fs.mkdir_once. destruct (Fs.os_mkdir fs p) as [e|fs1] eqn:E.
  - destruct e; try done; destruct exist_ok; try done;
      destruct (Fs.is_dir fs p) eqn:Ed; try done; by intros [= <-].
  - intros [= <-]. by eapply os_mkdir_is_dir.
Qed.

Lemma mkdir_rev_is_dir fs rp parents exist_ok fs' :
  Fs.mkdir_rev fs rp parents exist_ok = (fs', None) →
  Fs.is_dir fs' (rev rp) = true.
Proof.
  destruct rp as [|c rp]; simpl.
  - destruct (Fs.os_mkdir fs []) as [e|fs1] eqn:E.
    + destruct e; try done; destruct exist_ok; try done;
        destruct (Fs.is_dir fs []) eqn:Ed; try done; by intros [= <-].
    + intros [= <-]. by apply (os_mkdir_is_dir _ _ _ E).
  - destruct (Fs.os_mkdir fs _) as [e|fs1] eqn:E.
    + destruct e.
      * destruct parents; [|done].
        destruct (Fs.mkdir_rev fs rp true true) as [fs1 [e|]]; [done |].
        destruct (Fs.mkdir_once fs1 _ exist_ok) as [e|fs2] eqn:E2; [done |].
        intros [= <-]. by eapply mkdir_once_is_dir.
      * destruct exist_ok; try done.
        destruct (Fs.is_dir fs _) eqn:Ed; try done. by intros [= <-].
      * destruct exist_ok; try done.
        destruct (Fs.is_dir fs _) eqn:Ed; try done. by intros [= <-].
      * destruct exist_ok; try done.
        destruct (Fs.is_dir fs _) eqn:Ed; try done. by intros [= <-].
      * destruct exist_ok; try done.
        destruct (Fs.is_dir fs _) eqn:Ed; try done. by intros [= <-].
    + intros [= <-]. by apply (os_mkdir_is_dir _ _ _ E).
Qed.

Lemma mkdir_is_dir fs p parents exist_ok fs' :
  Fs.mkdir fs p parents exist_ok = (fs', None) → Fs.is_dir fs' p = true.
Proof.
  unfold Fs.mkdir. intros Hm%mkdir_rev_is_dir. by rewrite rev_involutive in Hm.
Qed.



End MkdirFacts.

Section SafePathFacts.

Context `{Platform}.
Variable self : SecurityManager.
Implicit Types (fs : Fs.filesystem) (p loc : path).

Lemma lstrip_sep_not_absolute (s : string) :
  PyStr.startswith "/" (PyStr.lstrip PyStr.is_sep s) = false.
Proof.
  induction s as [|c r IH]; [done |]. simpl PyStr.lstrip.
  destruct (PyStr.is_sep c) eqn:Hc; [done |].
  cbn [PyStr.startswith]. unfold PyStr.is_sep in Hc.
  apply orb_false_iff in Hc as [Hc _]. rewrite Ascii.eqb_sym in Hc. by rewrite Hc.
Qed.

Lemma safe_path_below fs s p :
  get_safe_path self fs s = Some p →
  p = base_dir self ++ PyPath.segments (clean_path s).
Proof.
  intros [-> _]%get_safe_path_Some. unfold PyPath.joinpath, clean_path.
  by rewrite lstrip_sep_not_absolute.
Qed.

Lemma safe_path_relative_str fs s p :
  get_safe_path self fs s = Some p →
  relative_str self p = inr (PyPath.str_rel (PyPath.segments (clean_path s))).
Proof.
  intros Hp%safe_path_below. unfold relative_str.
  by rewrite (proj2 (relative_to_Some p _ _) Hp).
Qed.

Lemma safe_path_no_dotdot fs s p :
  get_safe_path self fs s = Some p → ".." ∉ p.
Proof.
  intros [_ Hsafe]%get_safe_path_Some Hin.
  by rewrite is_path_safe_dotdot in Hsafe.
Qed.


Lemma locate_nil_occupied fs : Fs.occupied fs (Fs.locate fs []) = true.
Proof. unfold Fs.occupied. simpl. apply orb_true_r. Qed.

Lemma exists_occupied fs p :
  Fs.exists_ fs p = true → Fs.occupied fs (Fs.locate fs p) = true.
Proof.
  unfold Fs.exists_, Fs.stat. intros Hex.
  destruct (Fs.occupied fs (Fs.locate fs p)) eqn:Hocc; [done |].
  apply occupied_false in Hocc as [Hlink Hnone].
  rewrite (resolve_eq_locate _ _ Hlink), Hnone in Hex. done.
Qed.




End SafePathFacts.

(** ** [create_file] and [read_file] *)

Section RoundTrip.

Context `{Platform}.
Variable self : SecurityManager.

Lemma path_mkdir_links fs p parents exist_ok fs' :
  path_mkdir fs p parents exist_ok = Returned fs' tt → Fs.links fs' = Fs.links fs.
Proof.
  unfold path_mkdir. pose proof (mkdir_links fs p parents exist_ok) as Hl.
  destruct (Fs.mkdir fs p parents exist_ok) as [fs1 [e|]]; [done |].
  by intros [= <-].
Qed.

Lemma write_text_inv fs p encoding content fs' :
  write_text fs p encoding content = Returned fs' tt →
  ∃ enc bs, lookup_encoder encoding = Some enc
            ∧ enc (Codec.write_newlines content) = Some bs
            ∧ Fs.links fs' = Fs.links fs
            ∧ Fs.stat fs' p = Some (Fs.File bs).
Proof.
  unfold write_text. destruct (lookup_encoder encoding) as [enc|]; [|done].
  destruct (Fs.write_bytes fs p []) as [e|fs1] eqn:E1; [done |].
  destruct (enc _) as [bs|] eqn:Eenc; [|done].
  destruct (Fs.write_bytes fs1 p bs) as [e|fs2] eqn:E2; [done |].
  intros [= <-]. exists enc, bs.
  apply write_bytes_stat in E1 as [Hl1 _]. apply write_bytes_stat in E2 as [Hl2 Hst].
  repeat split; try done. congruence.
Qed.

(** What a successful [create_file] went through. *)
Lemma create_file_success fs request fs' result :
  create_file self fs request = (fs', result) →
  r_success result = true →
  ∃ file_path bs checksum rel,
    get_safe_path self fs (c_path request) = Some file_path
    ∧ validate_file_extension self file_path = true
    ∧ encode (c_content request) (c_encoding request) = inr bs
    ∧ validate_file_size self (Z.of_nat (length bs)) = true
    ∧ (Fs.exists_ fs file_path && negb (c_overwrite request)) = false
    ∧ Fs.links fs' = Fs.links fs
    ∧ Fs.stat fs' file_path = Some (Fs.File bs)
    ∧ calculate_checksum (c_content request) = Some checksum
    ∧ relative_str self file_path = inr rel
    ∧ result = mkResult rel "create" true None
                        (Some (Z.of_nat (length bs))) (Some checksum).
Proof.
  unfold create_file.
  destruct (get_safe_path self fs (c_path request)) as [file_path|] eqn:Esafe;
    [|by intros [= <- <-]].
  destruct (validate_file_extension self file_path) eqn:Eext;
    [|by intros [= <- <-]].
  cbn [negb].
  destruct (encode _ _) as [e|bs] eqn:Eenc; [by intros [= <- <-] |].
  destruct (validate_file_size self _) eqn:Esize; [|by intros [= <- <-]].
  cbn [negb].
  destruct (Fs.exists_ fs file_path && negb (c_overwrite request)) eqn:Eex;
    [by intros [= <- <-] |].
  destruct (path_mkdir fs _ true true) as [fs1 []|fs1 e] eqn:Emk;
    [|by intros [= <- <-]].
  destruct (write_text fs1 file_path _ _) as [fs2 []|fs2 e] eqn:Ewr;
    [|by intros [= <- <-]].
  unfold written.
  apply write_text_inv in Ewr as (enc & bs' & Hlook & Hbs' & Hl2 & Hstat).
  rewrite Hstat.
  destruct (calculate_checksum (c_content request)) as [checksum|] eqn:Esum;
    [|by intros [= <- <-]].
  destruct (relative_str self file_path) as [e|rel] eqn:Erel;
    [by intros [= <- <-] |].
  intros [= <- <-] _. exists file_path, bs, checksum, rel.
  assert (bs' = bs) as ->.
  { unfold encode in Eenc. rewrite Hlook in Eenc. unfold Codec.write_newlines in Hbs'.
    rewrite Hbs' in Eenc. congruence. }
  apply path_mkdir_links in Emk. repeat split; try done. congruence.
Qed.

Lemma encode_utf8 content encoding bs :
  is_utf8_name encoding = true →
  encode content encoding = inr bs → Codec.utf8_encode content = Some bs.
Proof.
  intros Hname. unfold encode, lookup_encoder. rewrite Hname.
  destruct (Codec.utf8_encode content); [|done]. by intros [= <-].
Qed.

End RoundTrip.

Section CreateFacts.

Context `{Platform}.
Variable self : SecurityManager.
Implicit Types (fs : Fs.filesystem) (p loc : path).

Lemma write_bytes_keeps_dirs fs p data fs' q :
  Fs.write_bytes fs p data = inr fs' →
  Fs.is_dir fs q = true → Fs.is_dir fs' q = true.
Proof.
  intros Hw Hq. pose proof (write_bytes_inv _ _ _ _ Hw) as [-> Hne].
  unfold Fs.is_dir, Fs.stat in *.
  rewrite (resolve_links fs (Fs.set_node fs (Fs.resolve fs p) (Fs.File data))) by done.
  destruct (decide (Fs.resolve fs p = Fs.resolve fs q)) as [Heq|Hneq].
  - exfalso. unfold Fs.write_bytes in Hw. rewrite Heq in Hw.
    by destruct (Fs.lookup_node fs (Fs.resolve fs q)) as [[]|].
  - by rewrite lookup_node_set_ne.
Qed.

Lemma write_text_keeps_dirs fs p encoding content fs' q :
  write_text fs p encoding content = Returned fs' tt →
  Fs.is_dir fs q = true → Fs.is_dir fs' q = true.
Proof.
  unfold write_text. destruct (lookup_encoder encoding) as [enc|]; [|done].
  destruct (Fs.write_bytes fs p []) as [e|fs1] eqn:E1; [done |].
  destruct (enc _) as [bs|]; [|done].
  destruct (Fs.write_bytes fs1 p bs) as [e|fs2] eqn:E2; [done |].
  intros [= <-] Hq. eauto using write_bytes_keeps_dirs.
Qed.

Lemma path_mkdir_is_dir fs p parents exist_ok fs' :
  path_mkdir fs p parents exist_ok = Returned fs' tt → Fs.is_dir fs' p = true.
Proof.
  unfold path_mkdir.
  destruct (Fs.mkdir fs p parents exist_ok) as [fs1 [e|]] eqn:E; [done |].
  intros [= <-]. by eapply mkdir_is_dir.
Qed.

End CreateFacts.


Section ValidationFacts.

Variable self : SecurityManager.




End ValidationFacts.



(** The scenarios of the specification with the allow-list [txt]: the note
    is created below a new directory, the executable is refused, and a
    second creation without [overwrite] is denied. *)
Example create_file_scenarios :
  let todo := mkCreate "notes/todo.txt" (Codec.of_string "buy milk") false "utf-8" in
  let exe := mkCreate "app.exe" (Codec.of_string "buy milk") false "utf-8" in
  let created := create_file (H := Sample.platform) Sample.manager_txt Sample.tree todo in
  r_success created.2 = true
  ∧ Fs.is_dir created.1 ["data"; "notes"] = true
  ∧ read_text created.1 ["data"; "notes"; "todo.txt"] = inr (Codec.of_string "buy milk")
  ∧ (create_file (H := Sample.platform) Sample.manager_txt Sample.tree exe).2
    = failure "app.exe" "create" (MsgForbiddenExtension ".exe")
  ∧ (create_file (H := Sample.platform) Sample.manager_txt created.1 todo).2
    = failure "notes/todo.txt" "create" MsgFileExists.
Proof. vm_compute. done. Qed.

(** C5 (amended).  When [create_file] succeeds with a UTF-8 encoding and a
    content without carriage return, [read_file] of the same path in the
    resulting tree returns that content, with the checksum
    [calculate_checksum] gives for it, which is the checksum the creation
    reported. *)
Theorem create_then_read `{Platform}
        (self : SecurityManager) (fs : Fs.filesystem) (request : FileCreateRequest)
        (fs' : Fs.filesystem) (result : FileOperationResult) :
  create_file self fs request = (fs', result) →
  r_success result = true →
  is_utf8_name (c_encoding request) = true →
  Codec.CR ∉ c_content request →
  ∃ file_content,
    read_file self fs' (c_path request) = inr file_content
    ∧ fc_content file_content = c_content request
    ∧ fc_checksum file_content = calculate_checksum (c_content request)
    ∧ fc_checksum file_content = r_checksum result.
Proof.
  intros Hcreate Hok Hutf8 Hcr.
  destruct (create_file_success self _ _ _ _ Hcreate Hok)
    as (file_path & bs & checksum & rel & Hsafe & _ & Henc & Hsize & _
        & Hlinks & Hstat & Hsum & Hrel & ->).
  apply (encode_utf8 _ _ _ Hutf8) in Henc.
  unfold read_file.
  rewrite (get_safe_path_links self fs fs') by done. rewrite Hsafe.
  apply get_safe_path_Some in Hsafe as [_ Hsafe].
  unfold can_read_file, Fs.access, Fs.exists_, Fs.is_file.
  rewrite (is_path_safe_links self fs fs') by done. rewrite Hsafe, Hstat.
  cbn [negb]. unfold read_text, Fs.read_bytes. rewrite Hstat.
  rewrite (utf8_decode_encode _ _ Henc), (universal_newlines_id _ Hcr).
  rewrite Henc, Hsize, Hsum, Hrel. cbn [negb]. eexists. split; [done |]. done.
Qed.

(** C5, at the scenario of the specification: [notes/todo.txt] with the
    content [buy milk]. *)
Lemma create_then_read_witness :
  let request := mkCreate "notes/todo.txt" (Codec.of_string "buy milk") false "utf-8" in
  let out := create_file (H := Sample.platform) Sample.manager_txt Sample.tree request in
  r_success out.2 = true
  ∧ ∃ file_content,
      read_file (H := Sample.platform) Sample.manager_txt out.1 "notes/todo.txt"
      = inr file_content
      ∧ fc_content file_content = Codec.of_string "buy milk"
      ∧ fc_checksum file_content = calculate_checksum (H := Sample.platform) (Codec.of_string "buy milk")
      ∧ fc_checksum file_content = r_checksum out.2.
Proof.
  intros request out.
  assert (Hok : r_success out.2 = true) by (vm_compute; reflexivity).
  split; [exact Hok |].
  refine (create_then_read (H := Sample.platform) Sample.manager_txt Sample.tree
            request out.1 out.2 _ Hok _ _).
  - apply surjective_pairing.
  - vm_compute; reflexivity.
  - vm_compute. intros Hin. repeat (apply elem_of_cons in Hin as [Hin|Hin]; [done |]).
    by apply elem_of_nil in Hin.
Defined.

(** C5 as stated fails: a carriage return is written as it is and read
    back as a line feed, so neither the content nor the checksum of the read
    is that of the creation. *)
Lemma create_then_read_loses_carriage_return :
  let request := mkCreate "a.txt" [97; 13; 98]%Z false "utf-8" in
  let out := create_file (H := Sample.platform) Sample.manager Sample.tree request in
  r_success out.2 = true
  ∧ ∃ file_content,
      read_file (H := Sample.platform) Sample.manager out.1 "a.txt" = inr file_content
      ∧ fc_content file_content = [97; 10; 98]%Z
      ∧ fc_content file_content ≠ c_content request
      ∧ fc_checksum file_content ≠ r_checksum out.2.
Proof.
  vm_compute. split; [done |]. eexists. split; [reflexivity |]. done.
Qed.

(** Nor does a content written in another encoding come back: the read
    decodes UTF-8. *)
Lemma create_then_read_latin1_fails :
  let request := mkCreate "e.txt" [233]%Z false "latin-1" in
  let out := create_file (H := Sample.platform) Sample.manager Sample.tree request in
  r_success out.2 = true
  ∧ read_file (H := Sample.platform) Sample.manager out.1 "e.txt"
    = inl (ReadError UnicodeDecodeError).
Proof. vm_compute. done. Qed.

(** ** [delete_file] *)

(** C3 (the code departs from it).  The claim: deleting a safe path whose
    target does not exist fails as not found.  The code: [can_delete_file]
    already answers no for a missing target, so [delete_file] returns the
    failure of a refused deletion, of the kind [Forbidden], and the tree is
    left as it was; the branch that reports a missing target is not
    reached. *)
Theorem delete_absent_reports_no_rights
        (self : SecurityManager) (fs : Fs.filesystem)
        (relative_path : string) (file_path : path) :
  get_safe_path self fs relative_path = Some file_path →
  Fs.exists_ fs file_path = false →
  let out := delete_file self fs relative_path in
  out = (fs, failure relative_path "delete" MsgNoDeleteRights)
  ∧ (kind_of <$> r_message out.2) = Some Forbidden
  ∧ (kind_of <$> r_message out.2) ≠ Some NotFound.
Proof.
  intros Hsafe Hex out.
  assert (Hout : out = (fs, failure relative_path "delete" MsgNoDeleteRights)).
  { subst out. unfold delete_file, can_delete_file. rewrite Hsafe.
    apply get_safe_path_Some in Hsafe as [_ ->]. by rewrite Hex. }
  by rewrite Hout.
Qed.

(** C3, at the input of the test of the repository: [nonexistent.txt] in an
    empty base directory. *)
Lemma delete_absent_reports_no_rights_witness :
  let out := delete_file Sample.manager Sample.tree "nonexistent.txt" in
  out = (Sample.tree, failure "nonexistent.txt" "delete" MsgNoDeleteRights)
  ∧ (kind_of <$> r_message out.2) = Some Forbidden
  ∧ (kind_of <$> r_message out.2) ≠ Some NotFound.
Proof.
  exact (delete_absent_reports_no_rights
           Sample.manager Sample.tree "nonexistent.txt" ["data"; "nonexistent.txt"]
           eq_refl eq_refl).
Defined.

(** ** [create_directory] *)




(** ** [list_directory] *)

Section SortFacts.

Lemma insert_sorted_perm (x : FileInfo) (l : list FileInfo) :
  insert_sorted x l ≡ₚ x :: l.
Proof.
  induction l as [|y l IH]; simpl; [done |].
  destruct (String.leb (sort_key x) (sort_key y)); [done |].
  rewrite IH. apply Permutation_swap.
Qed.

Lemma sort_by_name_perm (l : list FileInfo) : sort_by_name l ≡ₚ l.
Proof.
  induction l as [|x l IH]; simpl; [done |].
  by rewrite insert_sorted_perm, IH.
Qed.




End SortFacts.

Section ChildrenFacts.

Implicit Types (fs : Fs.filesystem) (p loc : path).

Lemma name_snoc p n : PyPath.name (p ++ [n]) = n.
Proof. unfold PyPath.name. apply last_last. Qed.

Lemma child_name_Some loc k n :
  Fs.child_name loc k = Some n ↔ k = loc ++ [n].
Proof.
  unfold Fs.child_name.
  destruct (PyPath.relative_to k loc) as [rel|] eqn:E.
  - apply relative_to_Some in E as ->.
    destruct rel as [|m [|m' rel]]; split; try done.
    + intros Heq. apply app_inv_head in Heq. done.
    + by intros [= ->].
    + intros Heq. apply app_inv_head in Heq. by injection Heq as ->.
    + intros Heq. apply app_inv_head in Heq. done.
  - split; [done |]. intros ->.
    by rewrite (proj2 (relative_to_Some (loc ++ [n]) loc [n]) eq_refl) in E.
Qed.

(** The children of a directory are the names under which a node or a link
    sits directly in it. *)
Lemma children_spec fs loc n :
  n ∈ Fs.children fs loc ↔
    is_Some (Fs.nodes fs !! (loc ++ [n])) ∨ is_Some (Fs.links fs !! (loc ++ [n])).
Proof.
  unfold Fs.children. rewrite list_elem_of_omap. split.
  - intros (k & Hk & ->%child_name_Some).
    apply elem_of_elements, elem_of_union in Hk.
    by rewrite !elem_of_dom in Hk.
  - intros Hn. exists (loc ++ [n]). split; [|by apply child_name_Some].
    apply elem_of_elements, elem_of_union. by rewrite !elem_of_dom.
Qed.

End ChildrenFacts.

Section ListFacts.

Context `{Platform}.
Variable self : SecurityManager.
Implicit Types (fs : Fs.filesystem) (p loc : path).

(** What the loop adds to its two lists. *)
Lemma list_entries_spec fs (items : list path) :
  ∀ files0 dirs0 files1 dirs1,
    list_entries self fs items files0 dirs0 = inr (files1, dirs1) →
    ∃ new_files new_dirs,
      files1 = files0 ++ new_files
      ∧ dirs1 = dirs0 ++ new_dirs
      ∧ Forall (λ x, is_directory x = false) new_files
      ∧ Forall (λ x, is_directory x = true) new_dirs
      ∧ map name (new_files ++ new_dirs)
        ≡ₚ filter visible (map PyPath.name items).
Proof.
  induction items as [|item rest IH]; intros files0 dirs0 files1 dirs1;
    cbn [list_entries map].
  - intros [= <- <-]. exists [], []. by rewrite !app_nil_r.
  - destruct (PyStr.startswith "." (PyPath.name item)) eqn:Hdot.
    { rewrite filter_cons_False by (unfold visible; congruence). apply IH. }
    rewrite filter_cons_True by done.
    destruct (relative_str self item) as [e|rel]; [done |].
    destruct (Fs.stat fs item) as [stat|]; [|done].
    destruct (Fs.is_dir fs item) eqn:Hdir; intros Hrun;
      destruct (IH _ _ _ _ Hrun) as (nf & nd & -> & -> & Hf & Hd & Hperm).
    + eexists nf, (_ :: nd). rewrite <- !app_assoc. split_and!; try done.
      * by constructor.
      * rewrite map_app. simpl. rewrite <- Permutation_middle.
        by rewrite <- map_app, Hperm.
    + eexists (_ :: nf), nd. rewrite <- !app_assoc. split_and!; try done.
      * by constructor.
      * simpl. by rewrite Hperm.
Qed.


End ListFacts.



(** ** The batch endpoint *)

Section BatchFacts.

Context `{Platform}.
Variable sm : SecurityManager.

(** What the loop adds to its three variables: one entry per operation it
    attempts, in order; the errors of the failed entries; the number of the
    others.  It attempts every operation unless it stops at a failure. *)
Lemma batch_loop_spec (ops : list Operation) (continue : bool) :
  ∀ (fs : Fs.filesystem) (acc : Acc) (fs' : Fs.filesystem) (acc' : Acc),
    batch_loop sm fs ops continue acc = (fs', acc') →
    ∃ (attempted skipped : list Operation) (new : list ResultEntry),
      ops = attempted ++ skipped
      ∧ Forall2 reports attempted new
      ∧ acc_results acc' = acc_results acc ++ new
      ∧ acc_errors acc' = acc_errors acc ++ map error_of (filter failed new)
      ∧ acc_successful acc'
        = (acc_successful acc + Z.of_nat (length (filter succeeded new)))%Z
      ∧ (skipped ≠ [] →
         continue = false
         ∧ ∃ before last, new = before ++ [last]
                          ∧ Forall succeeded before ∧ failed last).
Proof.
  induction ops as [|operation rest IH]; intros fs acc fs' acc'; simpl.
  - intros [= <- <-]. exists [], [], []. simpl.
    rewrite !app_nil_r. split_and!; try done. lia.
  - set (path := default EmptyString (op_path operation)).
    set (type := op_type operation).
    assert (Hstop : ∀ (entry : ResultEntry) acc1,
               e_path entry = path → e_type entry = type → failed entry →
               acc_results acc1 = acc_results acc ++ [entry] →
               acc_errors acc1 = acc_errors acc ++ [error_of entry] →
               acc_successful acc1 = acc_successful acc →
               (if negb continue then (fs', acc') = (fs', acc1)
                else ∃ fs1, batch_loop sm fs1 rest continue acc1 = (fs', acc')) →
               ∃ attempted skipped new,
                 operation :: rest = attempted ++ skipped
                 ∧ Forall2 reports attempted new
                 ∧ acc_results acc' = acc_results acc ++ new
                 ∧ acc_errors acc' = acc_errors acc ++ map error_of (filter failed new)
                 ∧ acc_successful acc'
                   = (acc_successful acc + Z.of_nat (length (filter succeeded new)))%Z
                 ∧ (skipped ≠ [] →
                    continue = false
                    ∧ ∃ before last, new = before ++ [last]
                                     ∧ Forall succeeded before ∧ failed last)).
    { intros entry acc1 Hp Ht Hfail Hres Herr Hsucc Hrun.
      assert (Hnot : ¬ succeeded entry) by (unfold succeeded; rewrite Hfail; done).
      destruct continue; cbn [negb] in Hrun.
      - destruct Hrun as [fs1 Hrun].
        destruct (IH _ _ _ _ Hrun)
          as (attempted & skipped & new & -> & Hrep & Hr & He & Hs & Hskip).
        exists (operation :: attempted), skipped, (entry :: new).
        rewrite filter_cons_True by done. rewrite filter_cons_False by done.
        rewrite Hr, He, Hs, Hres, Herr, Hsucc, <- !app_assoc. simpl.
        split_and!; try done.
        + by constructor.
        + intros Hne. by destruct (Hskip Hne).
      - injection Hrun as ->.
        exists [operation], rest, [entry].
        rewrite filter_cons_True by done. rewrite filter_cons_False by done.
        rewrite Hres, Herr, Hsucc. simpl. split_and!; try done.
        + by repeat constructor.
        + lia.
        + intros _. split; [done |]. exists [], entry. by split_and!. }
    destruct (dispatch sm fs operation) as [e|[fs1 result]] eqn:Hd.
    + intros Hrun.
      apply (Hstop (mkEntry path type false (FromException e))
                   (mkAcc (acc_results acc ++ [mkEntry path type false (FromException e)])
                          (acc_errors acc ++ [mkError path type (FromException e)])
                          (acc_successful acc))); try done.
      destruct (negb continue); [by injection Hrun as <- <- | by exists fs].
    + destruct (r_success result) eqn:Hok.
      * intros Hrun.
        destruct (IH _ _ _ _ Hrun)
          as (attempted & skipped & new & -> & Hrep & Hr & He & Hs & Hskip).
        simpl in Hr, He, Hs.
        set (entry := mkEntry path type true (FromResult (r_message result))) in *.
        assert (Hsucc : succeeded entry) by done.
        assert (Hnot : ¬ failed entry) by done.
        exists (operation :: attempted), skipped, (entry :: new).
        rewrite filter_cons_False by done. rewrite filter_cons_True by done.
        rewrite Hr, He, Hs, <- !app_assoc. simpl.
        split_and!; try done.
        -- by constructor.
        -- lia.
        -- intros Hne. destruct (Hskip Hne) as (-> & before & last & -> & Hall & Hlast).
           split; [done |].
           exists (entry :: before), last. split_and!; try done. by constructor.
      * intros Hrun.
        apply (Hstop (mkEntry path type false (FromResult (r_message result)))
                     (mkAcc (acc_results acc
                               ++ [mkEntry path type false (FromResult (r_message result))])
                            (acc_errors acc
                               ++ [mkError path type (FromResult (r_message result))])
                            (acc_successful acc))); try done.
        destruct (negb continue); [by injection Hrun as <- <- | by exists fs1].
Qed.

End BatchFacts.

Lemma filter_succeeded_failed (l : list ResultEntry) :
  (length (filter succeeded l) + length (filter failed l) = length l)%nat.
Proof.
  induction l as [|e l IH]; [done |].
  destruct (e_success e) eqn:He.
  - rewrite filter_cons_True by done.
    rewrite (filter_cons_False failed) by (unfold failed; congruence).
    simpl. lia.
  - rewrite (filter_cons_False succeeded) by (unfold succeeded; congruence).
    rewrite filter_cons_True by done. simpl. lia.
Qed.

Lemma batch_operations_spec `{Platform} (sm : SecurityManager)
      (fs : Fs.filesystem) (request : BatchOperationRequest) :
  let response := (batch_operations sm fs request).2 in
  ∃ attempted skipped,
    operations request = attempted ++ skipped
    ∧ Forall2 reports attempted (results response)
    ∧ errors response = map error_of (filter failed (results response))
    ∧ successful_operations response
      = Z.of_nat (length (filter succeeded (results response)))
    ∧ total_operations response = Z.of_nat (length (operations request))
    ∧ failed_operations response
      = (total_operations response - successful_operations response)%Z
    ∧ (skipped ≠ [] →
       continue_on_error request = false
       ∧ ∃ before last, results response = before ++ [last]
                        ∧ Forall succeeded before ∧ failed last).
Proof.
  unfold batch_operations.
  destruct (batch_loop sm fs (operations request) (continue_on_error request)
                       (mkAcc [] [] 0)) as [fs' acc] eqn:Hloop.
  destruct (batch_loop_spec sm _ _ _ _ _ _ Hloop)
    as (attempted & skipped & new & Hops & Hrep & Hr & He & Hs & Hskip).
  simpl in *. subst new. exists attempted, skipped. split_and!; try done.
Qed.



(** Three operations, the second of which fails, with [continue_on_error]:
    three entries, one failure, the third operation carried out. *)
Example batch_continues :
  let request :=
    mkBatch [Sample.create_op "valid.txt" "one";
             Sample.create_op "invalid.exe" "two";
             Sample.create_op "later.txt" "three"] true in
  let out := batch_operations (H := Sample.platform) Sample.manager_txt Sample.tree request in
  map e_success (results out.2) = [true; false; true]
  ∧ failed_operations out.2 = 1%Z
  ∧ length (errors out.2) = 1%nat
  ∧ Fs.is_file out.1 ["data"; "later.txt"] = true.
Proof. vm_compute. done. Qed.

(** C9.  [failed_operations] is the total less the successes; it equals the
    number of recorded errors plus the number of operations that were never
    attempted, and operations are left unattempted only when
    [continue_on_error] is off. *)
Theorem batch_failed_count `{Platform} (sm : SecurityManager)
        (fs : Fs.filesystem) (request : BatchOperationRequest) :
  let response := (batch_operations sm fs request).2 in
  let never_attempted :=
    (length (operations request) - length (results response))%nat in
  failed_operations response
  = (total_operations response - successful_operations response)%Z
  ∧ failed_operations response
    = (Z.of_nat (length (errors response)) + Z.of_nat never_attempted)%Z
  ∧ length (errors response) = length (filter failed (results response))
  ∧ ((0 < never_attempted)%nat → continue_on_error request = false).
Proof.
  intros response never_attempted.
  destruct (batch_operations_spec sm fs request)
    as (attempted & skipped & Hops & Hrep & He & Hs & Ht & Hf & Hskip).
  fold response in Hrep, He, Hs, Ht, Hf, Hskip.
  pose proof (Forall2_length _ _ _ Hrep) as Hlen.
  pose proof (filter_succeeded_failed (results response)) as Hcount.
  assert (Hall : length (operations request)
                 = (length (results response) + length skipped)%nat).
  { by rewrite Hops, length_app, Hlen. }
  assert (Herr : length (errors response) = length (filter failed (results response))).
  { by rewrite He, length_map. }
  split_and!; try done.
  - rewrite Hf, Ht, Hs, Herr. subst never_attempted. lia.
  - intros Hpos. subst never_attempted. apply Hskip. intros ->. simpl in Hall. lia.
Qed.

(** ** [sanitize_filename] *)

Section TextFacts.

Implicit Types (s : text) (c : Z).

Lemma text_lstrip_suffix s : ∃ front, s = front ++ PyText.lstrip s.
Proof.
  induction s as [|c s [front IH]]; simpl; [by exists [] |].
  destruct (PyText.is_whitespace c); [|by exists []].
  exists (c :: front). simpl. by f_equal.
Qed.

Lemma text_rstrip_prefix s : ∃ back, s = PyText.rstrip s ++ back.
Proof.
  induction s as [|c s [back IH]]; simpl; [by exists [] |].
  destruct (PyText.rstrip s) as [|d r] eqn:E.
  - destruct (PyText.is_whitespace c).
    + exists (c :: s). done.
    + exists back. simpl in *. by rewrite IH.
  - exists back. simpl in *. by rewrite <- IH.
Qed.

Lemma text_strip_Forall (P : Z → Prop) s : Forall P s → Forall P (PyText.strip s).
Proof.
  intros Hs. unfold PyText.strip.
  destruct (text_rstrip_prefix s) as [back Hb].
  destruct (text_lstrip_suffix (PyText.rstrip s)) as [front Hf].
  rewrite Hb, Hf in Hs. by apply Forall_app in Hs as [[_ ?]%Forall_app _].
Qed.

Lemma text_strip_length s : (length (PyText.strip s) ≤ length s)%nat.
Proof.
  unfold PyText.strip.
  destruct (text_rstrip_prefix s) as [back Hb].
  destruct (text_lstrip_suffix (PyText.rstrip s)) as [front Hf].
  rewrite Hb at 2. rewrite Hf at 2. rewrite !length_app. lia.
Qed.

Lemma text_lstrip_head s c :
  head (PyText.lstrip s) = Some c → PyText.is_whitespace c = false.
Proof.
  induction s as [|d s IH]; simpl; [done |].
  destruct (PyText.is_whitespace d) eqn:E; [done |]. by intros [= <-].
Qed.

Lemma text_rstrip_last s c :
  last (PyText.rstrip s) = Some c → PyText.is_whitespace c = false.
Proof.
  induction s as [|d s IH]; simpl; [done |].
  destruct (PyText.rstrip s) as [|e r] eqn:E.
  - destruct (PyText.is_whitespace d) eqn:Ed; [done |]. by intros [= <-].
  - done.
Qed.

Lemma text_lstrip_last s c :
  last (PyText.lstrip s) = Some c → last s = Some c.
Proof.
  destruct (text_lstrip_suffix s) as [front Hf]. intros Hl.
  rewrite Hf. destruct (PyText.lstrip s) as [|d r] using rev_ind; [done |].
  rewrite last_snoc in Hl. by rewrite app_assoc, last_snoc.
Qed.

Lemma text_lstrip_id s :
  (∀ c, head s = Some c → PyText.is_whitespace c = false) → PyText.lstrip s = s.
Proof.
  destruct s as [|d s]; [done |]. intros Hh. simpl. by rewrite (Hh d).
Qed.

Lemma text_rstrip_id s :
  (∀ c, last s = Some c → PyText.is_whitespace c = false) → PyText.rstrip s = s.
Proof.
  induction s as [|d s IH]; [done |]. intros Hl. simpl.
  destruct s as [|e s].
  - simpl. by rewrite (Hl d).
  - rewrite IH; [done |]. intros c Hc. apply Hl. done.
Qed.

Lemma text_strip_ends s :
  (∀ c, head (PyText.strip s) = Some c → PyText.is_whitespace c = false)
  ∧ (∀ c, last (PyText.strip s) = Some c → PyText.is_whitespace c = false).
Proof.
  unfold PyText.strip. split; intros c.
  - apply text_lstrip_head.
  - intros Hl%text_lstrip_last. by apply text_rstrip_last in Hl.
Qed.

Lemma text_strip_id s :
  (∀ c, head s = Some c → PyText.is_whitespace c = false) →
  (∀ c, last s = Some c → PyText.is_whitespace c = false) →
  PyText.strip s = s.
Proof.
  intros Hh Hl. unfold PyText.strip. rewrite text_rstrip_id by done. by apply text_lstrip_id.
Qed.

Lemma filter_all (f : Z → bool) s :
  Forall (λ c, f c = true) s → List.filter f s = s.
Proof.
  induction 1 as [|c s Hc _ IH]; simpl; [done |]. by rewrite Hc, IH.
Qed.

Lemma filter_kept (f : Z → bool) s : Forall (λ c, f c = true) (List.filter f s).
Proof.
  induction s as [|c s IH]; simpl; [constructor |].
  destruct (f c) eqn:E; [by constructor | done].
Qed.

Lemma slice_app k s : PyText.slice_to k s ++ PyText.slice_from k s = s.
Proof. apply firstn_skipn. Qed.

Lemma splitext_app s : (PyText.splitext s).1 ++ (PyText.splitext s).2 = s.
Proof.
  unfold PyText.splitext. destruct (_ && _); simpl; [apply slice_app | apply app_nil_r].
Qed.

Lemma slice_to_length k s :
  (0 ≤ k)%Z → (Z.of_nat (length (PyText.slice_to k s)) ≤ k)%Z.
Proof.
  intros Hk. unfold PyText.slice_to, PyText.bound. rewrite length_firstn.
  destruct (Z.ltb_spec k 0); lia.
Qed.

Lemma slice_to_Forall (P : Z → Prop) k s : Forall P s → Forall P (PyText.slice_to k s).
Proof. apply Forall_take. Qed.

Lemma kept_char_spec c :
  kept_char c = true ↔ (c ∉ dangerous_chars) ∧ (32 ≤ c)%Z.
Proof.
  unfold kept_char. rewrite andb_true_iff, negb_true_iff, Z.leb_le.
  rewrite existsb_false_Forall, Forall_forall.
  split; intros [Hd Hc]; (split; [|done]).
  - intros Hin. specialize (Hd _ Hin). by rewrite Z.eqb_refl in Hd.
  - intros d Hin. apply Z.eqb_neq. by intros ->.
Qed.

(** What [sanitize_filename] strips: the kept characters, cut if there are
    more than 255. *)
Lemma sanitize_filename_unfold (filename : text) :
  ∃ cut, sanitize_filename filename = PyText.strip cut
         ∧ Forall (λ c, kept_char c = true) cut
         ∧ ((length (List.filter kept_char filename) ≤ 255)%nat →
            cut = List.filter kept_char filename)
         ∧ ((255 < length (List.filter kept_char filename))%nat →
            cut = PyText.slice_to
                    (255 - Z.of_nat (length (PyText.splitext
                                               (List.filter kept_char filename)).2))
                    (PyText.splitext (List.filter kept_char filename)).1
                  ++ (PyText.splitext (List.filter kept_char filename)).2).
Proof.
  unfold sanitize_filename.
  set (kept := List.filter kept_char filename).
  assert (Hkept : Forall (λ c, kept_char c = true) kept) by apply filter_kept.
  destruct (Z.ltb_spec 255 (Z.of_nat (length kept))) as [Hlong|Hshort].
  - pose proof (splitext_app kept) as Happ.
    destruct (PyText.splitext kept) as [name ext]. simpl in *.
    eexists. split; [done |]. rewrite <- Happ in Hkept.
    apply Forall_app in Hkept as [Hn He].
    split_and!; [|lia|done].
    apply Forall_app. split; [by apply slice_to_Forall | done].
  - eexists. split; [done |]. split_and!; [done | done | lia].
Qed.

End TextFacts.

(** X1.  Whatever the name given, [sanitize_filename] returns a name without
    any of the dangerous characters and without control characters, which
    neither begins nor ends with white space. *)
Theorem sanitize_filename_clean (filename : text) :
  let out := sanitize_filename filename in
  Forall (λ c, (c ∉ dangerous_chars) ∧ (32 ≤ c)%Z) out
  ∧ (∀ c, head out = Some c → PyText.is_whitespace c = false)
  ∧ (∀ c, last out = Some c → PyText.is_whitespace c = false).
Proof.
  intros out. subst out.
  destruct (sanitize_filename_unfold filename) as (cut & -> & Hcut & _).
  split; [|apply text_strip_ends].
  apply text_strip_Forall. eapply Forall_impl; [exact Hcut |].
  intros c. apply kept_char_spec.
Qed.

(** X2.  The result has at most 255 characters when the extension of the
    name, after the characters that are not kept have been left out, has at
    most 255. *)
Theorem sanitize_filename_length (filename : text) :
  (length (PyText.splitext (List.filter kept_char filename)).2 ≤ 255)%nat →
  (length (sanitize_filename filename) ≤ 255)%nat.
Proof.
  intros Hext.
  destruct (sanitize_filename_unfold filename) as (cut & -> & _ & Hshort & Hlong).
  pose proof (text_strip_length cut) as Hstrip.
  enough (length cut ≤ 255)%nat by lia.
  destruct (le_lt_dec (length (List.filter kept_char filename)) 255) as [Hle|Hlt].
  - by rewrite (Hshort Hle).
  - rewrite (Hlong Hlt), length_app.
    pose proof (slice_to_length
                  (255 - Z.of_nat (length (PyText.splitext
                                             (List.filter kept_char filename)).2))
                  (PyText.splitext (List.filter kept_char filename)).1) as Hcut.
    lia.
Qed.

Lemma sanitize_filename_length_witness :
  (length (PyText.splitext (List.filter kept_char (repeat 97%Z 300 ++ Codec.of_string ".txt"))).2 ≤ 255)%nat
  ∧ (length (sanitize_filename (repeat 97%Z 300 ++ Codec.of_string ".txt")) ≤ 255)%nat.
Proof.
  assert (H : (length (PyText.splitext (List.filter kept_char
                 (repeat 97%Z 300 ++ Codec.of_string ".txt"))).2 ≤ 255)%nat)
    by (vm_compute; lia).
  split; [exact H |].
  exact (sanitize_filename_length _ H).
Defined.

(** X3.  A name of kept characters without white space whose extension has
    more than 255 characters keeps its whole extension: the result is
    longer than 255 characters. *)
Theorem sanitize_filename_long_extension (filename name ext : text) :
  Forall (λ c, kept_char c = true ∧ PyText.is_whitespace c = false) filename →
  PyText.splitext filename = (name, ext) →
  (255 < length ext)%nat →
  (∃ front, sanitize_filename filename = front ++ ext)
  ∧ (255 < length (sanitize_filename filename))%nat.
Proof.
  intros Hclean Hsplit Hlong.
  assert (Hkept : List.filter kept_char filename = filename).
  { apply filter_all. eapply Forall_impl; [exact Hclean |]. by intros c [? _]. }
  pose proof (splitext_app filename) as Happ. rewrite Hsplit in Happ. simpl in Happ.
  destruct (sanitize_filename_unfold filename) as (cut & Hout & _ & _ & Hcut).
  rewrite Hkept, Hsplit in Hcut. simpl in Hcut.
  rewrite Hcut in Hout by (rewrite <- Happ, length_app; lia).
  assert (Hplain : Forall (λ c, PyText.is_whitespace c = false) filename).
  { eapply Forall_impl; [exact Hclean |]. by intros c [_ ?]. }
  rewrite <- Happ in Hplain. apply Forall_app in Hplain as [Hn He].
  assert (Hid : ∀ front, Forall (λ c, PyText.is_whitespace c = false) front →
                         PyText.strip (front ++ ext) = front ++ ext).
  { intros front Hf. apply text_strip_id; intros c Hc.
    - assert (Hin : c ∈ front ++ ext) by (by apply head_Some_elem_of).
      apply elem_of_app in Hin as [Hin|Hin];
        [rewrite Forall_forall in Hf | rewrite Forall_forall in He]; eauto.
    - assert (Hin : c ∈ front ++ ext) by (by apply last_Some_elem_of).
      apply elem_of_app in Hin as [Hin|Hin];
        [rewrite Forall_forall in Hf | rewrite Forall_forall in He]; eauto. }
  rewrite Hout, Hid by (by apply slice_to_Forall).
  split; [by eexists |]. rewrite length_app. lia.
Qed.

Lemma sanitize_filename_long_extension_witness :
  let filename := Codec.of_string "a." ++ repeat 98%Z 300 in
  (∃ front, sanitize_filename filename = front ++ (46%Z :: repeat 98%Z 300))
  ∧ (255 < length (sanitize_filename filename))%nat.
Proof.
  refine (sanitize_filename_long_extension
            (Codec.of_string "a." ++ repeat 98%Z 300) [97%Z] (46%Z :: repeat 98%Z 300) _ _ _).
  - apply Forall_forall. intros c Hc. vm_compute in Hc.
    repeat (apply elem_of_cons in Hc as [->|Hc]; [by vm_compute |]).
    by apply elem_of_nil in Hc.
  - vm_compute. reflexivity.
  - vm_compute. lia.
Defined.

(** X4.  Applied to one of its results of at most 255 characters,
    [sanitize_filename] changes nothing. *)
Theorem sanitize_filename_idempotent (filename : text) :
  (length (sanitize_filename filename) ≤ 255)%nat →
  sanitize_filename (sanitize_filename filename) = sanitize_filename filename.
Proof.
  intros Hlen.
  destruct (sanitize_filename_unfold filename) as (cut & Hout & Hcut & _).
  assert (Hkept : List.filter kept_char (sanitize_filename filename)
                  = sanitize_filename filename).
  { apply filter_all. rewrite Hout. by apply text_strip_Forall. }
  destruct (sanitize_filename_unfold (sanitize_filename filename))
    as (cut' & Hout' & _ & Hshort & _).
  rewrite Hkept in Hshort. rewrite Hout', (Hshort Hlen).
  rewrite Hout at 1 2. destruct (text_strip_ends cut) as [Hh Hl]. by apply text_strip_id.
Qed.

Lemma sanitize_filename_idempotent_witness :
  let filename := Codec.of_string "  my:report?.txt " in
  (length (sanitize_filename filename) ≤ 255)%nat
  ∧ sanitize_filename (sanitize_filename filename) = sanitize_filename filename.
Proof.
  intros filename.
  assert (H : (length (sanitize_filename filename) ≤ 255)%nat) by (vm_compute; lia).
  split; [exact H |]. exact (sanitize_filename_idempotent filename H).
Defined.

(** ** The allow-list of extensions, from the configuration to the check *)

Section ExtensionFacts.

Implicit Types (s stem ext : string) (c : ascii).













End ExtensionFacts.



(** ** [update_file] *)

Section NewDirectories.

Implicit Types (fs : Fs.filesystem) (p loc : path).

Lemma only_new_directories_refl fs : only_new_directories fs fs.
Proof. split; [done |]. by left. Qed.

Lemma only_new_directories_trans fs1 fs2 fs3 :
  only_new_directories fs1 fs2 → only_new_directories fs2 fs3 →
  only_new_directories fs1 fs3.
Proof.
  intros [Hl1 Hn1] [Hl2 Hn2]. split; [congruence |]. intros loc.
  destruct (Hn1 loc) as [H1|[H1 H1']], (Hn2 loc) as [H2|[H2 H2']];
    try (left; congruence); try (right; split; congruence).
Qed.

Lemma os_mkdir_only_new fs p fs' :
  Fs.os_mkdir fs p = inr fs' → only_new_directories fs fs'.
Proof.
  intros (-> & Hocc & _)%os_mkdir_inv. split; [done |]. intros loc.
  apply occupied_false in Hocc as [_ Hnone].
  destruct (decide (Fs.locate fs p = loc)) as [<-|Hne].
  - right. split; [done |]. apply lookup_node_set. by intros E; rewrite E in Hnone.
  - left. by apply lookup_node_set_ne.
Qed.

Lemma mkdir_once_only_new fs p exist_ok fs' :
  Fs.mkdir_once fs p exist_ok = inr fs' → only_new_directories fs fs'.
Proof.
  unfold Fs.mkdir_once. destruct (Fs.os_mkdir fs p) as [e|fs1] eqn:E.
  - destruct e; try done; destruct (_ || _); try done; intros [= <-];
      apply only_new_directories_refl.
  - intros [= <-]. by eapply os_mkdir_only_new.
Qed.

Lemma mkdir_rev_only_new fs rp parents exist_ok :
  only_new_directories fs (Fs.mkdir_rev fs rp parents exist_ok).1.
Proof.
  revert fs parents exist_ok.
  induction rp as [|c rp IH]; intros fs parents exist_ok; simpl.
  - destruct (Fs.os_mkdir fs []) as [e|fs1] eqn:E.
    + destruct e; try (destruct (_ || _)); apply only_new_directories_refl.
    + by eapply os_mkdir_only_new.
  - destruct (Fs.os_mkdir fs _) as [e|fs1] eqn:E.
    + destruct e; try (destruct (_ || _); apply only_new_directories_refl).
      destruct parents; [|apply only_new_directories_refl].
      specialize (IH fs true true).
      destruct (Fs.mkdir_rev fs rp true true) as [fs1 [e|]]; [done |].
      destruct (Fs.mkdir_once fs1 _ exist_ok) as [e|fs2] eqn:E2; [done |].
      simpl in *. eapply only_new_directories_trans; [exact IH |].
      by eapply mkdir_once_only_new.
    + by eapply os_mkdir_only_new.
Qed.

Lemma path_mkdir_only_new fs p parents exist_ok :
  only_new_directories fs
    match path_mkdir fs p parents exist_ok with
    | Returned fs' _ => fs'
    | Raised fs' _ => fs'
    end.
Proof.
  unfold path_mkdir, Fs.mkdir.
  pose proof (mkdir_rev_only_new fs (rev p) parents exist_ok) as Hn.
  by destruct (Fs.mkdir_rev fs (rev p) parents exist_ok) as [fs1 [e|]].
Qed.

End NewDirectories.

Section UpdateFacts.

Context `{Platform}.
Variable self : SecurityManager.

(** What a successful [update_file] went through. *)
Lemma update_file_success fs relative_path request fs' result :
  update_file self fs relative_path request = (fs', result) →
  r_success result = true →
  ∃ file_path bs checksum rel,
    get_safe_path self fs relative_path = Some file_path
    ∧ validate_file_extension self file_path = true
    ∧ (Fs.exists_ fs file_path = true ∨ u_create_if_missing request = true)
    ∧ encode (u_content request) (u_encoding request) = inr bs
    ∧ validate_file_size self (Z.of_nat (length bs)) = true
    ∧ Fs.links fs' = Fs.links fs
    ∧ Fs.stat fs' file_path = Some (Fs.File bs)
    ∧ calculate_checksum (u_content request) = Some checksum
    ∧ relative_str self file_path = inr rel
    ∧ result = mkResult rel "update" true None
                        (Some (Z.of_nat (length bs))) (Some checksum).
Proof.
  unfold update_file.
  destruct (get_safe_path self fs relative_path) as [file_path|] eqn:Esafe;
    [|by intros [= <- <-]].
  destruct (validate_file_extension self file_path) eqn:Eext;
    [|by intros [= <- <-]].
  cbn [negb].
  destruct (negb (Fs.exists_ fs file_path) && negb (u_create_if_missing request))
    eqn:Emiss; [by intros [= <- <-] |].
  assert (Hthere : Fs.exists_ fs file_path = true ∨ u_create_if_missing request = true).
  { destruct (Fs.exists_ fs file_path); [by left |].
    destruct (u_create_if_missing request); [by right | done]. }
  remember (if negb (Fs.exists_ fs file_path)
            then path_mkdir fs (PyPath.parent file_path) true true
            else Returned fs tt) as start eqn:Hstart.
  assert (Hmk : ∀ fs1 u, start = Returned fs1 u → Fs.links fs1 = Fs.links fs).
  { intros fs1 []. rewrite Hstart. destruct (negb (Fs.exists_ fs file_path)).
    - apply path_mkdir_links.
    - by intros [= <-]. }
  destruct start as [fs1 []|fs1 e]; [|by intros [= <- <-]].
  specialize (Hmk fs1 tt eq_refl).
  destruct (encode _ _) as [e|bs] eqn:Eenc; [by intros [= <- <-] |].
  destruct (validate_file_size self _) eqn:Esize; [|by intros [= <- <-]].
  cbn [negb].
  destruct (write_text fs1 file_path _ _) as [fs2 []|fs2 e] eqn:Ewr;
    [|by intros [= <- <-]].
  unfold written.
  apply write_text_inv in Ewr as (enc & bs' & Hlook & Hbs' & Hl2 & Hstat).
  rewrite Hstat.
  destruct (calculate_checksum (u_content request)) as [checksum|] eqn:Esum;
    [|by intros [= <- <-]].
  destruct (relative_str self file_path) as [e|rel] eqn:Erel;
    [by intros [= <- <-] |].
  intros [= <- <-] _. exists file_path, bs, checksum, rel.
  assert (bs' = bs) as ->.
  { unfold encode in Eenc. rewrite Hlook in Eenc. unfold Codec.write_newlines in Hbs'.
    rewrite Hbs' in Eenc. congruence. }
  repeat split; try done. congruence.
Qed.

End UpdateFacts.




(** X10.  When [update_file] succeeds with a UTF-8 encoding and a content
    without carriage return, [read_file] of the same path in the resulting
    tree returns that content, with the size and the checksum the update
    reported. *)
Theorem update_then_read `{Platform}
        (self : SecurityManager) (fs : Fs.filesystem)
        (relative_path : string) (request : FileUpdateRequest)
        (fs' : Fs.filesystem) (result : FileOperationResult) :
  update_file self fs relative_path request = (fs', result) →
  r_success result = true →
  is_utf8_name (u_encoding request) = true →
  Codec.CR ∉ u_content request →
  ∃ file_content,
    read_file self fs' relative_path = inr file_content
    ∧ fc_content file_content = u_content request
    ∧ Some (fc_size file_content) = r_size result
    ∧ fc_checksum file_content = r_checksum result.
Proof.
  intros Hupdate Hok Hutf8 Hcr.
  destruct (update_file_success self _ _ _ _ _ Hupdate Hok)
    as (file_path & bs & checksum & rel & Hsafe & _ & _ & Henc & Hsize
        & Hlinks & Hstat & Hsum & Hrel & ->).
  apply (encode_utf8 _ _ _ Hutf8) in Henc.
  unfold read_file.
  rewrite (get_safe_path_links self fs fs') by done. rewrite Hsafe.
  apply get_safe_path_Some in Hsafe as [_ Hsafe].
  unfold can_read_file, Fs.access, Fs.exists_, Fs.is_file.
  rewrite (is_path_safe_links self fs fs') by done. rewrite Hsafe, Hstat.
  cbn [negb]. unfold read_text, Fs.read_bytes. rewrite Hstat.
  rewrite (utf8_decode_encode _ _ Henc), (universal_newlines_id _ Hcr).
  rewrite Henc, Hsize, Hsum, Hrel. cbn [negb]. eexists. split; [done |]. done.
Qed.

Lemma update_then_read_witness :
  let request := mkUpdate (Codec.of_string "v2") "UTF-8" false in
  let fs := Fs.mkfs {[ ["data"] := Fs.Dir; ["data"; "a.txt"] := Fs.File [118; 49]%Z ]} ∅ in
  let out := update_file (H := Sample.platform) Sample.manager fs "a.txt" request in
  r_success out.2 = true
  ∧ ∃ file_content,
      read_file (H := Sample.platform) Sample.manager out.1 "a.txt" = inr file_content
      ∧ fc_content file_content = Codec.of_string "v2"
      ∧ Some (fc_size file_content) = r_size out.2
      ∧ fc_checksum file_content = r_checksum out.2.
Proof.
  intros request fs out.
  assert (Hok : r_success out.2 = true) by (vm_compute; reflexivity).
  split; [exact Hok |].
  refine (update_then_read (H := Sample.platform) Sample.manager fs "a.txt"
            request out.1 out.2 _ Hok _ _).
  - apply surjective_pairing.
  - vm_compute; reflexivity.
  - vm_compute. intros Hin. repeat (apply elem_of_cons in Hin as [Hin|Hin]; [done |]).
    by apply elem_of_nil in Hin.
Defined.

(** ** The base directory of the configuration *)

(** X7.  When [validate_base_dir] returns, the value it keeps is the
    resolved path and a directory is there; when it raises [ValueError]
    something else than a directory is there and nothing was changed; in
    every case the tree differs at most by directories it made. *)
Theorem validate_base_dir_outcomes (fs : Fs.filesystem) (v : path) :
  match Config.validate_base_dir fs v with
  | Returned fs' p =>
      p = Fs.resolve fs v ∧ Fs.is_dir fs' p = true
      ∧ only_new_directories fs fs'
      ∧ (Fs.exists_ fs p = true → fs' = fs)
  | Raised fs' e =>
      only_new_directories fs fs'
      ∧ (e = ValueError ↔
         Fs.exists_ fs (Fs.resolve fs v) = true
         ∧ Fs.is_dir fs (Fs.resolve fs v) = false)
      ∧ (e = ValueError → fs' = fs)
  end.
Proof.
  unfold Config.validate_base_dir.
  destruct (Fs.exists_ fs (Fs.resolve fs v)) eqn:Hex; cbn [negb].
  - destruct (Fs.is_dir fs (Fs.resolve fs v)) eqn:Hdir; cbn [negb].
    + split_and!; try done. apply only_new_directories_refl.
    + split_and!; try done. apply only_new_directories_refl.
  - pose proof (path_mkdir_only_new fs (Fs.resolve fs v) true true) as Hnew.
    destruct (path_mkdir fs (Fs.resolve fs v) true true) as [fs1 []|fs1 e] eqn:Hmk.
    + split_and!; try done; [by eapply path_mkdir_is_dir | congruence].
    + assert (Hne : e ≠ ValueError).
      { intros ->. unfold path_mkdir in Hmk.
        by destruct (Fs.mkdir fs _ true true) as [? [|]]. }
      split; [done |]. split; [|done]. split; [done | by intros [? _]].
Qed.

(** ** [validate_path_operation] *)


(** ** What [read_file] returns *)

Lemma universal_newlines_no_CR (s : text) : Codec.CR ∉ Codec.universal_newlines s.
Proof.
  enough (Hboth : (Codec.CR ∉ Codec.universal_newlines s)
                  ∧ ∀ c, Codec.CR ∉ Codec.universal_newlines (c :: s)) by apply Hboth.
  induction s as [|a s [IH1 IH2]].
  - split; [apply not_elem_of_nil |]. intros c. simpl.
    destruct (Z.eqb_spec c Codec.CR); rewrite not_elem_of_cons;
      (split; [done | apply not_elem_of_nil]).
  - split; [apply IH2 |]. intros c. cbn [Codec.universal_newlines].
    destruct (Z.eqb_spec c Codec.CR) as [->|Hc].
    + destruct (Z.eqb_spec a Codec.LF); rewrite not_elem_of_cons;
        (split; [done |]); [apply IH1 | apply IH2].
    + rewrite not_elem_of_cons. split; [done | apply IH2].
Qed.

(** X11.  A content [read_file] returns is the UTF-8 text of a regular file
    at a safe path with its line ends translated: it holds no carriage
    return, and its size and checksum are those of the UTF-8 form of the
    translated text, within the limit. *)
Theorem read_file_returns `{Platform}
        (self : SecurityManager) (fs : Fs.filesystem)
        (relative_path : string) (content : FileContent) :
  read_file self fs relative_path = inr content →
  ∃ file_path data decoded bs,
    get_safe_path self fs relative_path = Some file_path
    ∧ Fs.stat fs file_path = Some (Fs.File data)
    ∧ Codec.utf8_decode data = Some decoded
    ∧ fc_content content = Codec.universal_newlines decoded
    ∧ (Codec.CR ∉ fc_content content)
    ∧ Codec.utf8_encode (fc_content content) = Some bs
    ∧ fc_size content = Z.of_nat (length bs)
    ∧ (fc_size content ≤ max_file_size self)%Z
    ∧ fc_checksum content = Some (sha256_hexdigest bs)
    ∧ fc_encoding content = "utf-8".
Proof.
  unfold read_file.
  destruct (get_safe_path self fs relative_path) as [file_path|] eqn:Hsafe; [|done].
  destruct (can_read_file self fs file_path) eqn:Hcan; [|done]. cbn [negb].
  unfold read_text, Fs.read_bytes.
  destruct (Fs.stat fs file_path) as [[data|]|] eqn:Hstat; try done.
  destruct (Codec.utf8_decode data) as [decoded|] eqn:Hdec; [|done].
  destruct (Codec.utf8_encode (Codec.universal_newlines decoded)) as [bs|] eqn:Henc;
    [|done].
  destruct (validate_file_size self _) eqn:Hsize; [|done]. cbn [negb].
  unfold calculate_checksum. rewrite Henc. cbn [option_map].
  destruct (relative_str self file_path); [done |].
  intros [= <-]. exists file_path, data, decoded, bs. cbn.
  split_and!; try done.
  - apply universal_newlines_no_CR.
  - unfold validate_file_size in Hsize. apply andb_true_iff in Hsize as [_ Hle].
    by apply Z.leb_le.
Qed.

Lemma read_file_returns_witness :
  let fs := Fs.mkfs {[ ["data"] := Fs.Dir;
                       ["data"; "dos.txt"] := Fs.File [97; 13; 10; 98]%Z ]} ∅ in
  ∃ content,
    read_file (H := Sample.platform) Sample.manager fs "dos.txt" = inr content
    ∧ fc_content content = [97; 10; 98]%Z
    ∧ fc_size content = 3%Z
    ∧ Codec.CR ∉ fc_content content.
Proof.
  intros fs.
  destruct (read_file (H := Sample.platform) Sample.manager fs "dos.txt")
    as [e|content] eqn:Hread; [by vm_compute in Hread |].
  exists content. split; [done |].
  destruct (read_file_returns (H := Sample.platform) Sample.manager fs "dos.txt"
              content Hread)
    as (file_path & data & decoded & bs & _ & _ & _ & _ & Hcr & _).
  vm_compute in Hread. injection Hread as <-. split_and!; try done.
Defined.


(** ** [get_file_info] and the endpoints that read *)

Section InfoFacts.

Context `{Platform}.
Variable self : SecurityManager.

(** [get_file_info] by what the path leads to. *)
Lemma get_file_info_stat fs relative_path file_path :
  get_safe_path self fs relative_path = Some file_path →
  get_file_info self fs relative_path =
    match Fs.stat fs file_path with
    | None => None
    | Some Fs.Dir =>
        Some (mkInfo (PyPath.name file_path)
                     (PyPath.str_rel (PyPath.segments (clean_path relative_path)))
                     0 false true None None)
    | Some (Fs.File data) =>
        Some (mkInfo (PyPath.name file_path)
                     (PyPath.str_rel (PyPath.segments (clean_path relative_path)))
                     (Z.of_nat (length data)) false false
                     (get_mime_type file_path)
                     (Some (sha256_hexdigest data)))
    end.
Proof.
  intros Hsafe. unfold get_file_info. rewrite Hsafe.
  rewrite (safe_path_relative_str self _ _ _ Hsafe).
  unfold Fs.exists_, Fs.is_dir, Fs.access, Fs.exists_, calculate_file_checksum,
    Fs.read_bytes.
  by destruct (Fs.stat fs file_path) as [[data|]|].
Qed.

End InfoFacts.

(** X14.  The info endpoint answers 404 exactly when the path is unsafe (a
    hidden name counts) or leads to nothing; no exception is ever swallowed
    for a safe path that exists.  For a file it gives the number of bytes
    and the digest of the bytes on disk, for a directory the size 0 and
    neither type nor digest. *)
Theorem get_file_info_answers `{Platform}
        (service : SecurityManager) (fs : Fs.filesystem) (relative_path : string) :
  match Endpoints.get_file_info service fs relative_path with
  | inl exc =>
      Endpoints.status_code exc = 404%Z
      ∧ (get_safe_path service fs relative_path = None
         ∨ ∃ file_path, get_safe_path service fs relative_path = Some file_path
                        ∧ Fs.exists_ fs file_path = false)
  | inr info =>
      ∃ file_path node,
        get_safe_path service fs relative_path = Some file_path
        ∧ Fs.stat fs file_path = Some node
        ∧ name info = PyPath.name file_path
        ∧ relative_str service file_path = inr (fi_path info)
        ∧ match node with
          | Fs.Dir =>
              is_directory info = true ∧ fi_size info = 0%Z
              ∧ fi_mime_type info = None ∧ fi_checksum info = None
          | Fs.File data =>
              is_directory info = false
              ∧ fi_size info = Z.of_nat (length data)
              ∧ fi_mime_type info = get_mime_type file_path
              ∧ fi_checksum info = Some (sha256_hexdigest data)
          end
  end.
Proof.
  unfold Endpoints.get_file_info.
  destruct (get_safe_path service fs relative_path) as [file_path|] eqn:Hsafe.
  - rewrite (get_file_info_stat service _ _ _ Hsafe).
    pose proof (safe_path_relative_str service _ _ _ Hsafe) as Hrel.
    unfold Fs.exists_.
    destruct (Fs.stat fs file_path) as [[data|]|] eqn:Hstat.
    + exists file_path, (Fs.File data). split_and!; done.
    + exists file_path, Fs.Dir. split_and!; done.
    + split; [done |]. right. exists file_path. by rewrite Hstat.
  - unfold get_file_info. rewrite Hsafe. split; [done |]. by left.
Qed.

(** X15.  What [create_file] reports on success is what [get_file_info] says
    of the file in the resulting tree: the same relative path and the same
    size, and, for a UTF-8 encoding, the same checksum. *)
Theorem create_then_get_file_info `{Platform}
        (self : SecurityManager) (fs : Fs.filesystem) (request : FileCreateRequest)
        (fs' : Fs.filesystem) (result : FileOperationResult) :
  create_file self fs request = (fs', result) →
  r_success result = true →
  ∃ info,
    get_file_info self fs' (c_path request) = Some info
    ∧ is_directory info = false
    ∧ fi_path info = r_path result
    ∧ Some (fi_size info) = r_size result
    ∧ (is_utf8_name (c_encoding request) = true →
       fi_checksum info = r_checksum result).
Proof.
  intros Hcreate Hok.
  destruct (create_file_success self _ _ _ _ Hcreate Hok)
    as (file_path & bs & checksum & rel & Hsafe & _ & Henc & _ & _
        & Hlinks & Hstat & Hsum & Hrel & ->).
  rewrite <- (get_safe_path_links self fs fs') in Hsafe by done.
  rewrite (get_file_info_stat self _ _ _ Hsafe), Hstat.
  rewrite (safe_path_relative_str self _ _ _ Hsafe) in Hrel. injection Hrel as <-.
  eexists. split; [done |]. cbn. split_and!; try done.
  intros Hutf8. apply (encode_utf8 _ _ _ Hutf8) in Henc.
  unfold calculate_checksum in Hsum. rewrite Henc in Hsum. by rewrite <- Hsum.
Qed.

Lemma create_then_get_file_info_witness :
  let request := mkCreate "notes/todo.txt" (Codec.of_string "buy milk") false "utf-8" in
  let out := create_file (H := Sample.platform) Sample.manager Sample.tree request in
  r_success out.2 = true
  ∧ ∃ info,
      get_file_info (H := Sample.platform) Sample.manager out.1 "notes/todo.txt" = Some info
      ∧ is_directory info = false
      ∧ fi_path info = r_path out.2
      ∧ Some (fi_size info) = r_size out.2
      ∧ (is_utf8_name "utf-8" = true → fi_checksum info = r_checksum out.2).
Proof.
  intros request out.
  assert (Hok : r_success out.2 = true) by (vm_compute; reflexivity).
  split; [exact Hok |].
  exact (create_then_get_file_info (H := Sample.platform) Sample.manager Sample.tree
           request out.1 out.2 (surjective_pairing _) Hok).
Defined.

(** X12.  The read endpoint answers 400 for an unsafe path, 403 for a safe
    path that does not lead to a regular file, a missing file included, and
    500 when a regular file could not be read or passes the limit; it never
    answers 404. *)
Theorem read_file_status `{Platform}
        (service : SecurityManager) (fs : Fs.filesystem) (relative_path : string) :
  let answer := Endpoints.read_file service fs relative_path in
  (get_safe_path service fs relative_path = None →
   answer = inl (Endpoints.mkHTTPException 400 (Endpoints.DetailOf UnsafePathError)))
  ∧ (∀ file_path,
       get_safe_path service fs relative_path = Some file_path →
       Fs.is_file fs file_path = false →
       answer = inl (Endpoints.mkHTTPException 403 (Endpoints.DetailOf NoAccessError)))
  ∧ (∀ exc,
       answer = inl exc →
       Endpoints.status_code exc ≠ 404%Z
       ∧ (Endpoints.status_code exc = 500%Z →
          ∃ file_path e,
            get_safe_path service fs relative_path = Some file_path
            ∧ Fs.is_file fs file_path = true
            ∧ Endpoints.detail exc = Endpoints.DetailOf (ReadError e))).
Proof.
  intros answer. subst answer. unfold Endpoints.read_file, read_file.
  destruct (get_safe_path service fs relative_path) as [file_path|] eqn:Hsafe.
  - pose proof (get_safe_path_Some service _ _ _ Hsafe) as [_ Hs].
    unfold can_read_file, Fs.access. rewrite Hs. cbn [negb].
    assert (Hfile : Fs.is_file fs file_path = true → Fs.exists_ fs file_path = true).
    { unfold Fs.is_file, Fs.exists_. by destruct (Fs.stat fs file_path) as [[]|]. }
    split_and!; [done | |].
    + intros ? [= <-] Hno. rewrite Hno.
      by destruct (Fs.exists_ fs file_path).
    + intros exc. destruct (Fs.is_file fs file_path) eqn:Hf.
      * rewrite (Hfile eq_refl). cbn [negb].
        destruct (read_text fs file_path) as [e|content];
          [intros [= <-]; split; [done |]; intros _; by eexists _, _ |].
        destruct (Codec.utf8_encode content) as [bs|];
          [|intros [= <-]; split; [done |]; intros _; by eexists _, _].
        destruct (validate_file_size service _); cbn [negb];
          [|intros [= <-]; split; [done |]; intros _; by eexists _, _].
        destruct (calculate_checksum content);
          [|intros [= <-]; split; [done |]; intros _; by eexists _, _].
        destruct (relative_str service file_path); [|done].
        intros [= <-]; split; [done |]; intros _; by eexists _, _.
      * destruct (Fs.exists_ fs file_path); cbn [negb]; intros [= <-]; by split.
  - split_and!; [done | done |]. intros exc [= <-]. by split.
Qed.

(** X13.  The listing endpoint answers 400 for an unsafe path and for a path
    that leads to something else than a directory, 404 for a safe path that
    leads to nothing, and 500 only for a directory whose entries could not
    be examined. *)
Theorem list_files_status `{Platform}
        (service : SecurityManager) (fs : Fs.filesystem) (dir : string) :
  let answer := Endpoints.list_files service fs dir in
  let asked := if String.eqb dir EmptyString then "." else dir in
  (get_safe_path service fs asked = None →
   answer = inl (Endpoints.mkHTTPException 400 (Endpoints.DetailOf UnsafePathError)))
  ∧ (∀ dir_path,
       get_safe_path service fs asked = Some dir_path →
       (Fs.exists_ fs dir_path = false →
        answer = inl (Endpoints.mkHTTPException
                        404 (Endpoints.DetailOf DirectoryNotFoundError)))
       ∧ (Fs.is_file fs dir_path = true →
          answer = inl (Endpoints.mkHTTPException
                          400 (Endpoints.DetailOf NotADirectoryError)))
       ∧ (∀ exc, answer = inl exc → Endpoints.status_code exc = 500%Z →
                 Fs.is_dir fs dir_path = true)).
Proof.
  intros answer asked. subst answer. unfold Endpoints.list_files, list_directory.
  fold asked.
  destruct (get_safe_path service fs asked) as [dir_path|] eqn:Hsafe; [|done].
  split; [done |]. intros ? [= <-].
  unfold Fs.exists_, Fs.is_file, Fs.is_dir.
  destruct (Fs.stat fs dir_path) as [[data|]|]; cbn [negb]; split_and!; try done.
  - intros exc [= <-]. done.
  - intros exc [= <-]. done.
Qed.

(** ** [create_file] a second time *)

Section AgainFacts.

Context `{Platform}.
Variable self : SecurityManager.
Implicit Types (fs : Fs.filesystem) (p loc : path).

(** With [exist_ok], making a directory that is there changes nothing. *)
Lemma mkdir_existing fs p parents :
  Fs.is_dir fs p = true → Fs.mkdir fs p parents true = (fs, None).
Proof.
  intros Hdir.
  assert (Hocc : Fs.occupied fs (Fs.locate fs p) = true).
  { apply exists_occupied. unfold Fs.exists_, Fs.is_dir in *.
    by destruct (Fs.stat fs p) as [[]|]. }
  unfold Fs.mkdir.
  assert (Hos : Fs.os_mkdir fs (rev (rev p)) = inl Fs.EEXIST).
  { rewrite rev_involutive. unfold Fs.os_mkdir. by rewrite Hocc. }
  assert (Hd : Fs.is_dir fs (rev (rev p)) = true) by (by rewrite rev_involutive).
  destruct (rev p); simpl in *; rewrite Hos; by rewrite ?Hd.
Qed.

(** Writing to a file what it holds changes nothing. *)
Lemma write_text_same fs p encoding content enc bs :
  lookup_encoder encoding = Some enc →
  enc (Codec.write_newlines content) = Some bs →
  Fs.stat fs p = Some (Fs.File bs) →
  write_text fs p encoding content = Returned fs tt.
Proof.
  intros Hlook Henc Hstat. unfold write_text, Fs.write_bytes. rewrite Hlook.
  unfold Fs.stat in Hstat. rewrite Hstat.
  rewrite (resolve_links fs (Fs.set_node fs (Fs.resolve fs p) (Fs.File []))) by done.
  assert (Hne : Fs.resolve fs p ≠ []).
  { intros E. rewrite E in Hstat. done. }
  rewrite lookup_node_set by done. rewrite Henc. f_equal.
  destruct fs as [nodes links]. unfold Fs.set_node. cbn [Fs.nodes Fs.links].
  f_equal. rewrite insert_insert_eq. apply insert_id.
  unfold Fs.lookup_node in Hstat. cbn [Fs.nodes] in Hstat.
  by destruct (Fs.resolve _ p).
Qed.

(** The parent of a file [create_file] has written is a directory. *)
Lemma create_file_parent fs request fs' result file_path :
  create_file self fs request = (fs', result) →
  r_success result = true →
  get_safe_path self fs (c_path request) = Some file_path →
  Fs.is_dir fs' (PyPath.parent file_path) = true.
Proof.
  unfold create_file. intros Hrun Hok Hsafe. rewrite Hsafe in Hrun.
  destruct (negb (validate_file_extension self file_path));
    [by injection Hrun as <- <- |].
  destruct (encode _ _) as [e|bs]; [by injection Hrun as <- <- |]. cbn zeta in Hrun.
  destruct (negb (validate_file_size self _)); [by injection Hrun as <- <- |].
  destruct (_ && _); [by injection Hrun as <- <- |].
  destruct (path_mkdir fs _ true true) as [fs1 []|fs1 e] eqn:Emk;
    [|by injection Hrun as <- <-].
  destruct (write_text fs1 file_path _ _) as [fs2 []|fs2 e] eqn:Ewr;
    [|by injection Hrun as <- <-].
  assert (fs' = fs2) as -> by (by destruct (written self fs2 _ _ _ _); injection Hrun).
  eapply write_text_keeps_dirs; [exact Ewr |]. by eapply path_mkdir_is_dir.
Qed.

End AgainFacts.

(** X16.  A successful [create_file] repeated on the tree it left: with
    [overwrite] it succeeds again, with the same result and the tree left
    as it is; without [overwrite] it is refused because the file exists, and
    the tree is left as it is. *)
Theorem create_file_again `{Platform}
        (self : SecurityManager) (fs : Fs.filesystem) (request : FileCreateRequest)
        (fs' : Fs.filesystem) (result : FileOperationResult) :
  create_file self fs request = (fs', result) →
  r_success result = true →
  create_file self fs' request
  = (fs', if c_overwrite request then result
          else failure (c_path request) "create" MsgFileExists).
Proof.
  intros Hcreate Hok.
  destruct (create_file_success self _ _ _ _ Hcreate Hok)
    as (file_path & bs & checksum & rel & Hsafe & Hext & Henc & Hsize & _
        & Hlinks & Hstat & Hsum & Hrel & Hres).
  pose proof (create_file_parent self _ _ _ _ _ Hcreate Hok Hsafe) as Hparent.
  unfold create_file.
  rewrite (get_safe_path_links self fs fs') by done.
  rewrite Hsafe, Hext, Henc. cbn zeta. rewrite Hsize. cbn [negb].
  unfold Fs.exists_. rewrite Hstat. cbn [andb].
  destruct (c_overwrite request); cbn [negb]; [|done].
  unfold path_mkdir. rewrite (mkdir_existing _ _ _ Hparent).
  unfold encode in Henc.
  destruct (lookup_encoder (c_encoding request)) as [enc|] eqn:Hlook; [|done].
  destruct (enc (c_content request)) as [bs'|] eqn:Hbs; [|done].
  injection Henc as ->.
  rewrite (write_text_same _ _ _ _ enc bs Hlook Hbs Hstat).
  unfold written. by rewrite Hstat, Hsum, Hrel, Hres.
Qed.

Lemma create_file_again_witness :
  let request := mkCreate "notes/todo.txt" (Codec.of_string "buy milk") true "utf-8" in
  let out := create_file (H := Sample.platform) Sample.manager Sample.tree request in
  r_success out.2 = true
  ∧ create_file (H := Sample.platform) Sample.manager out.1 request = (out.1, out.2).
Proof.
  intros request out.
  assert (Hok : r_success out.2 = true) by (vm_compute; reflexivity).
  split; [exact Hok |].
  exact (create_file_again (H := Sample.platform) Sample.manager Sample.tree request
           out.1 out.2 (surjective_pairing _) Hok).
Defined.


(** ** [delete_file]: what goes and what stays *)

Section DeleteFacts.

Variable self : SecurityManager.
Implicit Types (fs : Fs.filesystem) (p loc q : path).

(** A map without the keys at or below [loc]. *)
Lemma lookup_filter_outside {A} (m : gmap (list string) A) loc q :
  filter (λ kv, PyPath.is_relative_to kv.1 loc = false) m !! q =
    if PyPath.is_relative_to q loc then None else m !! q.
Proof.
  destruct (PyPath.is_relative_to q loc) eqn:Hq.
  - apply map_lookup_filter_None. right. intros x _. simpl. congruence.
  - destruct (m !! q) as [x|] eqn:Hm.
    + by apply map_lookup_filter_Some.
    + apply map_lookup_filter_None. by left.
Qed.

(** [delete_file] once the checks are passed. *)
Lemma delete_file_checked fs relative_path file_path :
  get_safe_path self fs relative_path = Some file_path →
  Fs.exists_ fs file_path = true →
  Fs.exists_ fs (PyPath.parent file_path) = true →
  delete_file self fs relative_path =
    if Fs.is_file fs file_path then
      match Fs.unlink fs file_path with
      | inl e => (fs, failure relative_path "delete" (MsgDeleteError (OSError e)))
      | inr fs' =>
          (fs', mkResult (PyPath.str_rel (PyPath.segments (clean_path relative_path)))
                         "delete" true None None None)
      end
    else
      match Fs.rmtree fs file_path with
      | inl e => (fs, failure relative_path "delete" (MsgDeleteError (OSError e)))
      | inr fs' =>
          (fs', mkResult (PyPath.str_rel (PyPath.segments (clean_path relative_path)))
                         "delete" true None None None)
      end.
Proof.
  intros Hsafe Hex Hparent. unfold delete_file, can_delete_file, Fs.access, deleted.
  rewrite Hsafe, (safe_path_relative_str self _ _ _ Hsafe).
  apply get_safe_path_Some in Hsafe as [_ ->]. rewrite Hex, Hparent. cbn [negb].
  destruct (Fs.is_file fs file_path) eqn:Hfile; [done |].
  replace (Fs.is_dir fs file_path) with true; [done |].
  unfold Fs.exists_, Fs.is_file, Fs.is_dir in *.
  by destruct (Fs.stat fs file_path) as [[]|].
Qed.


End DeleteFacts.





(** ** Nothing outside the base directory changes *)

Section Outside.

Variable root : path.
Implicit Types (fs : Fs.filesystem) (p loc q : path).

Lemma same_outside_refl fs : same_outside root fs fs.
Proof. by split. Qed.

Lemma same_outside_trans fs1 fs2 fs3 :
  same_outside root fs1 fs2 → same_outside root fs2 fs3 → same_outside root fs1 fs3.
Proof.
  intros [Hl1 Hn1] [Hl2 Hn2]. split; [congruence |].
  intros q Hq. by rewrite Hn2, Hn1.
Qed.

Lemma plain_same_outside fs fs' :
  plain_tree root fs → same_outside root fs fs' → plain_tree root fs'.
Proof.
  intros [Hl Hup] [Hl' Hn]. split; [congruence |].
  intros above rest Hroot Hrest. specialize (Hup above rest Hroot Hrest).
  destruct above as [|a above]; [done |]. simpl in Hup. simpl. rewrite Hn; [done |].
  intros [rel Hrel]. rewrite Hrel in Hroot.
  apply (f_equal length) in Hroot. rewrite !length_app in Hroot.
  destruct rest; [done | simpl in Hroot; lia].
Qed.

Lemma resolve_fold fs p cur :
  Fs.links fs = ∅ → ".." ∉ p → fold_left (Fs.step fs) p cur = cur ++ p.
Proof.
  intros Hl. revert cur. induction p as [|c p IH]; intros cur Hdd; simpl.
  - by rewrite app_nil_r.
  - apply not_elem_of_cons in Hdd as [Hc Hp]. rewrite IH by done.
    unfold Fs.step. rewrite Hl, lookup_empty.
    destruct (String.eqb_spec c ".."); [congruence |]. by rewrite <- app_assoc.
Qed.

Lemma resolve_plain fs p :
  Fs.links fs = ∅ → ".." ∉ p → Fs.resolve fs p = p.
Proof. intros Hl Hdd. unfold Fs.resolve. by rewrite resolve_fold. Qed.

Lemma locate_plain fs p :
  Fs.links fs = ∅ → ".." ∉ p → Fs.locate fs p = p.
Proof.
  intros Hl Hdd. destruct p as [|c p _] using rev_ind; [done |].
  rewrite locate_snoc. apply not_elem_of_app in Hdd as [Hp Hc].
  apply not_elem_of_cons in Hc as [Hc _].
  destruct (String.eqb_spec c ".."); [congruence |]. by rewrite resolve_plain.
Qed.

Lemma set_node_same_outside fs loc n :
  within root loc → same_outside root fs (Fs.set_node fs loc n).
Proof.
  intros Hin. split; [done |]. intros q Hq. simpl.
  apply lookup_insert_ne. by intros ->.
Qed.

Lemma os_mkdir_same_outside fs p fs' :
  Fs.links fs = ∅ → ".." ∉ p → within root p →
  Fs.os_mkdir fs p = inr fs' → same_outside root fs fs'.
Proof.
  intros Hl Hdd Hin (-> & _)%os_mkdir_inv.
  rewrite locate_plain by done. by apply set_node_same_outside.
Qed.

Lemma mkdir_once_same_outside fs p exist_ok fs' :
  Fs.links fs = ∅ → ".." ∉ p → within root p →
  Fs.mkdir_once fs p exist_ok = inr fs' → same_outside root fs fs'.
Proof.
  intros Hl Hdd Hin. unfold Fs.mkdir_once.
  destruct (Fs.os_mkdir fs p) as [e|fs1] eqn:E.
  - destruct e; try done; destruct (_ || _); try done; intros [= <-];
      apply same_outside_refl.
  - intros [= <-]. by eapply os_mkdir_same_outside.
Qed.

Lemma os_mkdir_ENOENT fs p :
  Fs.os_mkdir fs p = inl Fs.ENOENT →
  Fs.lookup_node fs (PyPath.parent (Fs.locate fs p)) = None.
Proof.
  unfold Fs.os_mkdir. destruct (Fs.occupied fs _); [done |].
  by destruct (Fs.lookup_node fs _) as [[|]|].
Qed.

(** [Path.mkdir] on a path at or below the root makes nothing outside
    it. *)
Lemma mkdir_rev_same_outside (rel : list string) :
  ∀ fs parents exist_ok,
    plain_tree root fs → ".." ∉ root ++ rel →
    same_outside root fs
      (Fs.mkdir_rev fs (rev (root ++ rel)) parents exist_ok).1.
Proof.
  induction rel as [|c rel IH] using rev_ind; intros fs parents exist_ok Hplain Hdd.
  - rewrite app_nil_r in *. destruct Hplain as [Hl Hup].
    destruct (rev root) as [|c rr] eqn:Erev.
    + simpl. assert (E : Fs.os_mkdir fs [] = inl Fs.EEXIST)
        by (unfold Fs.os_mkdir; by rewrite locate_nil_occupied).
      rewrite E. destruct (_ || _); apply same_outside_refl.
    + assert (Hroot : root = rev rr ++ [c]).
      { apply (f_equal (@rev _)) in Erev. by rewrite rev_involutive in Erev. }
      simpl. rewrite <- Hroot.
      destruct (Fs.os_mkdir fs root) as [e|fs1] eqn:E.
      * destruct e; try (destruct (_ || _); apply same_outside_refl).
        exfalso. apply os_mkdir_ENOENT in E. rewrite locate_plain in E by done.
        rewrite Hroot in E. unfold PyPath.parent in E. rewrite removelast_last in E.
        by rewrite (Hup (rev rr) [c] Hroot) in E.
      * eapply os_mkdir_same_outside; [done | done | | done].
        exists []. by rewrite app_nil_r.
  - rewrite app_assoc, rev_app_distr. simpl.
    assert (Hrev : rev (rev (root ++ rel)) ++ [c] = (root ++ rel) ++ [c])
      by (by rewrite rev_involutive).
    rewrite Hrev.
    assert (Hin : within root ((root ++ rel) ++ [c]))
      by (exists (rel ++ [c]); by rewrite app_assoc).
    rewrite app_assoc in Hdd.
    assert (Hdd' : ".." ∉ root ++ rel).
    { intros Hin'. apply Hdd. apply elem_of_app. by left. }
    destruct (Fs.os_mkdir fs ((root ++ rel) ++ [c])) as [e|fs1] eqn:E.
    + destruct e; try (destruct (_ || _); apply same_outside_refl).
      destruct parents; [|apply same_outside_refl].
      specialize (IH fs true true Hplain Hdd').
      destruct (Fs.mkdir_rev fs (rev (root ++ rel)) true true) as [fs1 [e|]]; [done |].
      simpl in IH.
      destruct (Fs.mkdir_once fs1 _ exist_ok) as [e|fs2] eqn:E2; [done |].
      simpl. eapply same_outside_trans; [exact IH |].
      eapply mkdir_once_same_outside; [| | |exact E2]; try done.
      destruct IH as [-> _]. by destruct Hplain.
    + eapply os_mkdir_same_outside; [| | |exact E]; try done. by destruct Hplain.
Qed.

Lemma mkdir_same_outside fs p parents exist_ok :
  plain_tree root fs → ".." ∉ p → within root p →
  same_outside root fs (Fs.mkdir fs p parents exist_ok).1.
Proof.
  intros Hplain Hdd [rel ->]. by apply mkdir_rev_same_outside.
Qed.

Lemma write_bytes_same_outside fs p data fs' :
  Fs.links fs = ∅ → ".." ∉ p → within root p →
  Fs.write_bytes fs p data = inr fs' → same_outside root fs fs'.
Proof.
  intros Hl Hdd Hin (-> & _)%write_bytes_inv.
  rewrite resolve_plain by done. by apply set_node_same_outside.
Qed.

Lemma unlink_same_outside fs p fs' :
  Fs.links fs = ∅ → ".." ∉ p → within root p →
  Fs.unlink fs p = inr fs' → same_outside root fs fs'.
Proof.
  intros Hl Hdd Hin. unfold Fs.unlink, Fs.is_link.
  rewrite locate_plain by done. rewrite Hl, lookup_empty.
  destruct (Fs.lookup_node fs p) as [[]|]; try done. intros [= <-].
  split; [done |]. intros q Hq. simpl. apply lookup_delete_ne. by intros ->.
Qed.

Lemma rmtree_same_outside fs p fs' :
  Fs.links fs = ∅ → ".." ∉ p → within root p →
  Fs.rmtree fs p = inr fs' → same_outside root fs fs'.
Proof.
  intros Hl Hdd [rel ->]. unfold Fs.rmtree, Fs.is_link.
  rewrite locate_plain by done. rewrite Hl, lookup_empty.
  destruct (Fs.lookup_node fs _) as [[]|]; try done. intros [= <-].
  split; [simpl; by rewrite Hl, map_filter_empty |]. intros q Hq. simpl.
  destruct (Fs.nodes fs !! q) as [x|] eqn:Hm.
  - apply map_lookup_filter_Some. split; [done |]. simpl.
    destruct (PyPath.is_relative_to q (root ++ rel)) eqn:E; [|done].
    exfalso. apply Hq. apply is_relative_to_within in E as [rel' ->].
    exists (rel ++ rel'). by rewrite app_assoc.
  - apply map_lookup_filter_None. by left.
Qed.

(** Making the parent of a path at or below the root: nothing changes
    when the path is the root, whose parent is there. *)
Lemma mkdir_parent_same_outside fs p parents exist_ok :
  plain_tree root fs → ".." ∉ p → within root p →
  same_outside root fs (Fs.mkdir fs (PyPath.parent p) parents exist_ok).1.
Proof.
  intros Hplain Hdd [rel ->].
  destruct rel as [|c rel _] using rev_ind.
  - rewrite app_nil_r in *. destruct Hplain as [Hl Hup].
    assert (Hocc : Fs.occupied fs (Fs.locate fs (PyPath.parent root)) = true).
    { unfold PyPath.parent.
      destruct (rev root) as [|c rr] eqn:Erev.
      - assert (root = []) as Hroot
          by (apply (f_equal (@rev _)) in Erev; by rewrite rev_involutive in Erev).
        rewrite Hroot. apply locate_nil_occupied.
      - assert (Hroot : root = rev rr ++ [c]).
        { apply (f_equal (@rev _)) in Erev. by rewrite rev_involutive in Erev. }
        rewrite Hroot, removelast_last. rewrite locate_plain; [|done |].
        + unfold Fs.occupied. rewrite (Hup (rev rr) [c] Hroot) by done.
          apply orb_true_r.
        + intros Hin. apply Hdd. rewrite Hroot. apply elem_of_app. by left. }
    unfold Fs.mkdir.
    assert (Hos : Fs.os_mkdir fs (rev (rev (PyPath.parent root))) = inl Fs.EEXIST).
    { rewrite rev_involutive. unfold Fs.os_mkdir. by rewrite Hocc. }
    destruct (rev (PyPath.parent root)); simpl in *; rewrite Hos;
      destruct (_ || _); apply same_outside_refl.
  - unfold PyPath.parent. rewrite app_assoc, removelast_last.
    apply mkdir_same_outside; [done | | by exists rel].
    intros Hin. apply Hdd. rewrite app_assoc. apply elem_of_app. by left.
Qed.

End Outside.

Section OperationsOutside.

Context `{Platform}.
Variable self : SecurityManager.
Implicit Types (fs : Fs.filesystem) (p : path).

Lemma safe_path_within fs s p :
  get_safe_path self fs s = Some p → within (base_dir self) p ∧ ".." ∉ p.
Proof.
  intros Hsafe. split; [|by eapply safe_path_no_dotdot].
  apply safe_path_below in Hsafe. by eexists.
Qed.

Lemma path_mkdir_parent_same_outside fs p :
  plain_tree (base_dir self) fs → ".." ∉ p → within (base_dir self) p →
  same_outside (base_dir self) fs
    match path_mkdir fs (PyPath.parent p) true true with
    | Returned fs' _ => fs'
    | Raised fs' _ => fs'
    end.
Proof.
  intros Hplain Hdd Hin. unfold path_mkdir.
  pose proof (mkdir_parent_same_outside _ fs p true true Hplain Hdd Hin) as Hm.
  by destruct (Fs.mkdir fs (PyPath.parent p) true true) as [fs1 [e|]].
Qed.

Lemma write_text_same_outside fs p encoding content :
  Fs.links fs = ∅ → ".." ∉ p → within (base_dir self) p →
  same_outside (base_dir self) fs
    match write_text fs p encoding content with
    | Returned fs' _ => fs'
    | Raised fs' _ => fs'
    end.
Proof.
  intros Hl Hdd Hin. unfold write_text.
  destruct (lookup_encoder encoding) as [enc|]; [|apply same_outside_refl].
  destruct (Fs.write_bytes fs p []) as [e|fs1] eqn:E1; [apply same_outside_refl |].
  pose proof (write_bytes_same_outside _ _ _ _ _ Hl Hdd Hin E1) as H1.
  destruct (enc _) as [bs|]; [|done].
  destruct (Fs.write_bytes fs1 p bs) as [e|fs2] eqn:E2; [done |].
  eapply same_outside_trans; [exact H1 |].
  eapply write_bytes_same_outside; [| | |exact E2]; try done.
  destruct H1 as [-> _]. done.
Qed.

Lemma create_file_same_outside fs request :
  plain_tree (base_dir self) fs →
  same_outside (base_dir self) fs (create_file self fs request).1.
Proof.
  intros Hplain. unfold create_file.
  destruct (get_safe_path self fs (c_path request)) as [p|] eqn:Hsafe;
    [|apply same_outside_refl].
  destruct (safe_path_within _ _ _ Hsafe) as [Hin Hdd].
  destruct (negb (validate_file_extension self p)); [apply same_outside_refl |].
  destruct (encode _ _) as [e|bs]; [apply same_outside_refl |]. cbn zeta.
  destruct (negb (validate_file_size self _)); [apply same_outside_refl |].
  destruct (_ && _); [apply same_outside_refl |].
  pose proof (path_mkdir_parent_same_outside fs p Hplain Hdd Hin) as Hmk.
  destruct (path_mkdir fs (PyPath.parent p) true true) as [fs1 []|fs1 e]; [|done].
  assert (Hl1 : Fs.links fs1 = ∅) by (destruct Hmk as [-> _]; by destruct Hplain).
  pose proof (write_text_same_outside fs1 p (c_encoding request) (c_content request)
                Hl1 Hdd Hin) as Hwr.
  destruct (write_text fs1 p _ _) as [fs2 []|fs2 e];
    [|by eapply same_outside_trans].
  destruct (written self fs2 _ _ _ _); by eapply same_outside_trans.
Qed.

Lemma update_file_same_outside fs relative_path request :
  plain_tree (base_dir self) fs →
  same_outside (base_dir self) fs (update_file self fs relative_path request).1.
Proof.
  intros Hplain. unfold update_file.
  destruct (get_safe_path self fs relative_path) as [p|] eqn:Hsafe;
    [|apply same_outside_refl].
  destruct (safe_path_within _ _ _ Hsafe) as [Hin Hdd].
  destruct (negb (validate_file_extension self p)); [apply same_outside_refl |].
  destruct (_ && _); [apply same_outside_refl |].
  assert (Hmk : same_outside (base_dir self) fs
                  match (if negb (Fs.exists_ fs p)
                         then path_mkdir fs (PyPath.parent p) true true
                         else Returned fs tt) with
                  | Returned fs' _ => fs'
                  | Raised fs' _ => fs'
                  end).
  { destruct (negb (Fs.exists_ fs p)); [|apply same_outside_refl].
    by apply path_mkdir_parent_same_outside. }
  destruct (if negb (Fs.exists_ fs p) then _ else _) as [fs1 []|fs1 e]; [|done].
  assert (Hl1 : Fs.links fs1 = ∅) by (destruct Hmk as [-> _]; by destruct Hplain).
  destruct (encode _ _) as [e|bs]; [done |]. cbn zeta.
  destruct (negb (validate_file_size self _)); [done |].
  pose proof (write_text_same_outside fs1 p (u_encoding request) (u_content request)
                Hl1 Hdd Hin) as Hwr.
  destruct (write_text fs1 p _ _) as [fs2 []|fs2 e];
    [|by eapply same_outside_trans].
  destruct (written self fs2 _ _ _ _); by eapply same_outside_trans.
Qed.

Lemma delete_file_same_outside fs relative_path :
  plain_tree (base_dir self) fs →
  same_outside (base_dir self) fs (delete_file self fs relative_path).1.
Proof.
  intros [Hl Hup]. unfold delete_file.
  destruct (get_safe_path self fs relative_path) as [p|] eqn:Hsafe;
    [|apply same_outside_refl].
  destruct (safe_path_within _ _ _ Hsafe) as [Hin Hdd].
  destruct (negb (can_delete_file self fs p)); [apply same_outside_refl |].
  destruct (Fs.is_file fs p).
  { destruct (Fs.unlink fs p) as [e|fs1] eqn:E; [apply same_outside_refl |].
    unfold deleted. destruct (relative_str self p);
      by eapply unlink_same_outside. }
  destruct (Fs.is_dir fs p); [|apply same_outside_refl].
  destruct (Fs.rmtree fs p) as [e|fs1] eqn:E; [apply same_outside_refl |].
  unfold deleted. destruct (relative_str self p); by eapply rmtree_same_outside.
Qed.

Lemma create_directory_same_outside fs request :
  plain_tree (base_dir self) fs →
  same_outside (base_dir self) fs (create_directory self fs request).1.
Proof.
  intros Hplain. unfold create_directory.
  destruct (get_safe_path self fs (d_path request)) as [p|] eqn:Hsafe;
    [|apply same_outside_refl].
  destruct (safe_path_within _ _ _ Hsafe) as [Hin Hdd].
  unfold path_mkdir.
  pose proof (mkdir_same_outside _ fs p (d_recursive request) false Hplain Hdd Hin) as Hm.
  destruct (Fs.mkdir fs p (d_recursive request) false) as [fs1 [e|]].
  - by destruct e.
  - destruct (Fs.stat fs1 p); [|done]. by destruct (relative_str self p).
Qed.

Lemma dispatch_same_outside fs operation fs' result :
  plain_tree (base_dir self) fs →
  dispatch self fs operation = inr (fs', result) →
  same_outside (base_dir self) fs fs'.
Proof.
  intros Hplain. unfold dispatch.
  destruct (is_type operation "create_file").
  { destruct (make_create_request _) as [e|r]; [done |]. intros [= Hr].
    pose proof (create_file_same_outside fs r Hplain) as Hs. by rewrite Hr in Hs. }
  destruct (is_type operation "update_file").
  { destruct (make_update_request _) as [e|r]; [done |]. intros [= Hr].
    pose proof (update_file_same_outside fs (default EmptyString (op_path operation))
                  r Hplain) as Hs.
    by rewrite Hr in Hs. }
  destruct (is_type operation "delete").
  { intros [= Hr].
    pose proof (delete_file_same_outside fs (default EmptyString (op_path operation))
                  Hplain) as Hs.
    by rewrite Hr in Hs. }
  destruct (is_type operation "create_directory"); [|done].
  destruct (make_directory_request _) as [e|r]; [done |]. intros [= Hr].
  pose proof (create_directory_same_outside fs r Hplain) as Hs. by rewrite Hr in Hs.
Qed.

Lemma batch_loop_same_outside (ops : list Operation) (continue : bool) :
  ∀ fs acc,
    plain_tree (base_dir self) fs →
    same_outside (base_dir self) fs (batch_loop self fs ops continue acc).1.
Proof.
  induction ops as [|operation rest IH]; intros fs acc Hplain;
    [apply same_outside_refl |].
  cbn [batch_loop].
  destruct (dispatch self fs operation) as [e|[fs1 result]] eqn:Hd.
  - destruct (negb continue); [apply same_outside_refl | by apply IH].
  - pose proof (dispatch_same_outside _ _ _ _ Hplain Hd) as H1.
    pose proof (plain_same_outside _ _ _ Hplain H1) as Hplain1.
    destruct (r_success result).
    + eapply same_outside_trans; [exact H1 | by apply IH].
    + destruct (negb continue); [done |].
      eapply same_outside_trans; [exact H1 | by apply IH].
Qed.

End OperationsOutside.

(** X19.  In a tree without symbolic links where the directories above the
    base directory are there, no operation of the service changes anything
    outside the base directory, whatever the request and whatever its
    outcome: every node that is not the base directory or below it is left
    as it was, and no link appears. *)
Theorem operations_stay_inside `{Platform}
        (self : SecurityManager) (fs : Fs.filesystem) :
  plain_tree (base_dir self) fs →
  (∀ request, same_outside (base_dir self) fs (create_file self fs request).1)
  ∧ (∀ relative_path request,
       same_outside (base_dir self) fs (update_file self fs relative_path request).1)
  ∧ (∀ relative_path,
       same_outside (base_dir self) fs (delete_file self fs relative_path).1)
  ∧ (∀ request,
       same_outside (base_dir self) fs (create_directory self fs request).1).
Proof.
  intros Hplain. split_and!; intros.
  - by apply create_file_same_outside.
  - by apply update_file_same_outside.
  - by apply delete_file_same_outside.
  - by apply create_directory_same_outside.
Qed.

Lemma operations_stay_inside_witness :
  let fs := Fs.mkfs {[ ["data"] := Fs.Dir; ["etc"] := Fs.Dir;
                       ["etc"; "passwd"] := Fs.File [] ]} ∅ in
  plain_tree ["data"] fs
  ∧ same_outside ["data"] fs (delete_file Sample.manager fs ".").1
  ∧ same_outside ["data"] fs
      (create_file (H := Sample.platform) Sample.manager fs
         (mkCreate "a/b.txt" [] false "utf-8")).1.
Proof.
  intros fs.
  assert (Hplain : plain_tree ["data"] fs).
  { split; [done |]. intros above rest Heq Hrest.
    destruct above as [|a above]; [done |].
    destruct above; [|by destruct above]. injection Heq as _ <-. done. }
  destruct (operations_stay_inside (H := Sample.platform) Sample.manager fs Hplain)
    as (Hcreate & _ & Hdelete & _).
  split_and!; [exact Hplain | apply Hdelete | apply Hcreate].
Defined.

(** X20.  The same for a whole batch: in such a tree, whatever the
    operations, the batch endpoint leaves every node outside the base
    directory as it was, and the tree it leaves is again such a tree. *)
Theorem batch_stays_inside `{Platform} (sm : SecurityManager)
        (fs : Fs.filesystem) (request : BatchOperationRequest) :
  plain_tree (base_dir sm) fs →
  let out := batch_operations sm fs request in
  same_outside (base_dir sm) fs out.1 ∧ plain_tree (base_dir sm) out.1.
Proof.
  intros Hplain out.
  assert (Hsame : same_outside (base_dir sm) fs out.1).
  { subst out. unfold batch_operations.
    pose proof (batch_loop_same_outside sm (operations request)
                  (continue_on_error request) fs (mkAcc [] [] 0) Hplain) as Hs.
    by destruct (batch_loop sm fs _ _ _). }
  split; [done |]. by eapply plain_same_outside.
Qed.

Lemma batch_stays_inside_witness :
  let fs := Fs.mkfs {[ ["data"] := Fs.Dir; ["etc"] := Fs.Dir;
                       ["etc"; "passwd"] := Fs.File [] ]} ∅ in
  let request := mkBatch [Sample.create_op "a.txt" "x"; Sample.delete_op "/etc/passwd";
                          Sample.delete_op "."] true in
  let out := batch_operations (H := Sample.platform) Sample.manager fs request in
  plain_tree ["data"] fs
  ∧ same_outside ["data"] fs out.1 ∧ plain_tree ["data"] out.1.
Proof.
  intros fs request out.
  assert (Hplain : plain_tree ["data"] fs).
  { split; [done |]. intros above rest Heq Hrest.
    destruct above as [|a above]; [done |].
    destruct above; [|by destruct above]. injection Heq as _ <-. done. }
  split; [exact Hplain |].
  exact (batch_stays_inside (H := Sample.platform) Sample.manager fs request Hplain).
Defined.

(** With links, a deletion can reach outside the base directory: [l] is a
    link to the directory [/outside], where [back] is a link to a file of the
    base directory; [l/back] is a safe path, and deleting it removes the link
    [/outside/back] and leaves the file. *)
Example delete_file_link_outside :
  let fs := Fs.mkfs {[ ["data"] := Fs.Dir; ["data"; "x.txt"] := Fs.File [];
                       ["outside"] := Fs.Dir ]}
                    {[ ["data"; "l"] := ["outside"];
                       ["outside"; "back"] := ["data"; "x.txt"] ]} in
  let out := delete_file Sample.manager fs "l/back" in
  get_safe_path Sample.manager fs "l/back" = Some ["data"; "l"; "back"]
  ∧ r_success out.2 = true
  ∧ Fs.links fs !! ["outside"; "back"] = Some ["data"; "x.txt"]
  ∧ Fs.links out.1 !! ["outside"; "back"] = None
  ∧ Fs.stat out.1 ["data"; "x.txt"] = Some (Fs.File []).
Proof. vm_compute. done. Qed.

(** ** A listing after a creation or a deletion *)

Section ListingFacts.

Context `{Platform}.
Variable self : SecurityManager.
Implicit Types (fs : Fs.filesystem) (p loc : path).

(** A visible entry that is no directory is put among the files. *)
Lemma list_entries_files fs (items : list path) :
  ∀ files0 dirs0 files1 dirs1 item,
    list_entries self fs items files0 dirs0 = inr (files1, dirs1) →
    item ∈ items → visible (PyPath.name item) → Fs.is_dir fs item = false →
    PyPath.name item ∈ map name files1.
Proof.
  assert (Hgrow : ∀ items files0 dirs0 files1 dirs1,
             list_entries self fs items files0 dirs0 = inr (files1, dirs1) →
             ∀ n, n ∈ map name files0 → n ∈ map name files1).
  { intros its f0 d0 f1 d1 Hrun n Hn.
    apply list_entries_spec in Hrun as (nf & nd & -> & _).
    rewrite map_app. apply elem_of_app. by left. }
  induction items as [|first rest IH]; intros files0 dirs0 files1 dirs1 item;
    cbn [list_entries].
  - intros _ Hin. by apply elem_of_nil in Hin.
  - intros Hrun Hin Hvis Hdir. apply elem_of_cons in Hin as [->|Hin].
    + unfold visible in Hvis. rewrite Hvis in Hrun.
      destruct (relative_str self first) as [e|rel]; [done |].
      destruct (Fs.stat fs first) as [stat|]; [|done].
      rewrite Hdir in Hrun. eapply Hgrow; [exact Hrun |].
      rewrite map_app. apply elem_of_app. right. simpl. left.
    + destruct (PyStr.startswith "." (PyPath.name first)); [by eapply IH |].
      destruct (relative_str self first) as [e|rel]; [done |].
      destruct (Fs.stat fs first) as [stat|]; [|done].
      destruct (Fs.is_dir fs first); by eapply IH.
Qed.

(** The names of a listing are among the visible names found in the
    directory. *)
Lemma list_directory_names fs relative_path dir_path response :
  get_safe_path self fs (if String.eqb relative_path EmptyString then "." else relative_path)
  = Some dir_path →
  list_directory self fs relative_path = inr response →
  Fs.is_dir fs dir_path = true
  ∧ ∃ files0 dirs0,
      list_entries self fs
        (map (λ n, dir_path ++ [n]) (Fs.children fs (Fs.resolve fs dir_path))) [] []
      = inr (files0, dirs0)
      ∧ files response = sort_by_name files0
      ∧ directories response = sort_by_name dirs0.
Proof.
  intros Hsafe. unfold list_directory. rewrite Hsafe.
  destruct (Fs.exists_ fs dir_path); [|done]. cbn [negb].
  destruct (Fs.is_dir fs dir_path) eqn:Hdir; [|done]. cbn [negb].
  unfold Fs.iterdir. unfold Fs.is_dir in Hdir.
  destruct (Fs.stat fs dir_path) as [[]|]; try done.
  destruct (list_entries self fs _ [] []) as [e|[files0 dirs0]] eqn:Hloop; [done |].
  destruct (relative_str self dir_path); [done |].
  intros [= <-]. split; [done |]. by exists files0, dirs0.
Qed.

End ListingFacts.

(** X21.  After a successful [create_file] of a file whose name does not
    begin with a dot, a listing of the directory of the file names the file
    among its files. *)
Theorem create_then_list `{Platform}
        (self : SecurityManager) (fs : Fs.filesystem) (request : FileCreateRequest)
        (fs' : Fs.filesystem) (result : FileOperationResult)
        (file_path : path) (dir : string) (response : FileListResponse) :
  create_file self fs request = (fs', result) →
  r_success result = true →
  get_safe_path self fs (c_path request) = Some file_path →
  visible (PyPath.name file_path) →
  get_safe_path self fs' (if String.eqb dir EmptyString then "." else dir)
  = Some (PyPath.parent file_path) →
  list_directory self fs' dir = inr response →
  PyPath.name file_path ∈ map name (files response).
Proof.
  intros Hcreate Hok Hpath Hvis Hdir Hlist.
  destruct (create_file_success self _ _ _ _ Hcreate Hok)
    as (p & bs & checksum & rel & Hsafe & _ & _ & _ & _
        & Hlinks & Hstat & _ & _ & _).
  rewrite Hpath in Hsafe. injection Hsafe as <-.
  destruct (list_directory_names self _ _ _ _ Hdir Hlist)
    as (_ & files0 & dirs0 & Hloop & -> & _).
  pose proof (safe_path_no_dotdot self _ _ _ Hpath) as Hdd.
  destruct file_path as [|c dir_path _] using rev_ind.
  { unfold Fs.stat in Hstat. simpl in Hstat. done. }
  unfold PyPath.parent in Hloop. rewrite removelast_last in Hloop.
  rewrite name_snoc in *.
  assert (Hc : String.eqb c ".." = false).
  { apply String.eqb_neq. intros ->. apply Hdd. apply elem_of_app. right. left. }
  assert (Hin : c ∈ Fs.children fs' (Fs.resolve fs' dir_path)).
  { apply children_spec. unfold Fs.stat in Hstat. rewrite resolve_snoc in Hstat.
    unfold Fs.step in Hstat. rewrite Hc in Hstat.
    destruct (Fs.links fs' !! (Fs.resolve fs' dir_path ++ [c])) as [t|] eqn:Hl;
      [by right |].
    left. unfold Fs.lookup_node in Hstat.
    destruct (Fs.resolve fs' dir_path ++ [c]) eqn:E; [by destruct (Fs.resolve fs' dir_path) |].
    exists (Fs.File bs). exact Hstat. }
  rewrite sort_by_name_perm.
  rewrite <- (name_snoc dir_path c).
  eapply list_entries_files; [exact Hloop | | by rewrite name_snoc |].
  - apply list_elem_of_In, in_map_iff. exists c. split; [done |]. by apply list_elem_of_In.
  - unfold Fs.is_dir. by rewrite Hstat.
Qed.

Lemma create_then_list_witness :
  let request := mkCreate "notes/todo.txt" (Codec.of_string "buy milk") false "utf-8" in
  let out := create_file (H := Sample.platform) Sample.manager Sample.tree request in
  ∃ response,
    list_directory (H := Sample.platform) Sample.manager out.1 "notes" = inr response
    ∧ "todo.txt" ∈ map name (files response).
Proof.
  intros request out.
  destruct (list_directory (H := Sample.platform) Sample.manager out.1 "notes")
    as [e|response] eqn:Hlist; [by vm_compute in Hlist |].
  exists response. split; [done |].
  exact (create_then_list (H := Sample.platform) Sample.manager Sample.tree request
           out.1 out.2 ["data"; "notes"; "todo.txt"] "notes" response
           (surjective_pairing _) eq_refl eq_refl eq_refl eq_refl Hlist).
Defined.

(** X22.  In a tree without symbolic links, after a successful
    [delete_file] no listing of the directory the entry was in names it any
    more. *)
Theorem delete_then_list `{Platform}
        (self : SecurityManager) (fs : Fs.filesystem) (relative_path : string)
        (fs' : Fs.filesystem) (result : FileOperationResult)
        (file_path : path) (dir : string) (response : FileListResponse) :
  Fs.links fs = ∅ →
  delete_file self fs relative_path = (fs', result) →
  r_success result = true →
  get_safe_path self fs relative_path = Some file_path →
  get_safe_path self fs' (if String.eqb dir EmptyString then "." else dir)
  = Some (PyPath.parent file_path) →
  list_directory self fs' dir = inr response →
  PyPath.name file_path ∉ map name (files response ++ directories response).
Proof.
  intros Hl Hdelete Hok Hpath Hdir Hlist.
  pose proof (safe_path_no_dotdot self _ _ _ Hpath) as Hdd.
  assert (Hcan : can_delete_file self fs file_path = true).
  { unfold delete_file in Hdelete. rewrite Hpath in Hdelete.
    destruct (can_delete_file self fs file_path); [done |].
    injection Hdelete as <- <-. done. }
  assert (Hex : Fs.exists_ fs file_path = true
                ∧ Fs.exists_ fs (PyPath.parent file_path) = true).
  { unfold can_delete_file, Fs.access in Hcan.
    destruct (negb (is_path_safe self fs file_path)); [done |].
    destruct (Fs.exists_ fs file_path); [done | done]. }
  destruct Hex as [Hex Hparent].
  rewrite (delete_file_checked self _ _ _ Hpath Hex Hparent) in Hdelete.
  (* what is left where the entry was *)
  assert (Hgone : Fs.links fs' = ∅
                  ∧ Fs.nodes fs' !! (PyPath.parent file_path ++ [PyPath.name file_path])
                    = None).
  { destruct (Fs.is_file fs file_path) eqn:Hfile.
    - unfold Fs.unlink, Fs.is_link in Hdelete.
      rewrite locate_plain, Hl, lookup_empty in Hdelete by done.
      unfold Fs.is_file, Fs.stat in Hfile. rewrite resolve_plain in Hfile by done.
      destruct (Fs.lookup_node fs file_path) as [[]|] eqn:Hnode;
        injection Hdelete as <- <-; try done. split; [done |]. simpl.
      destruct file_path as [|c dir_path _] using rev_ind; [done |].
      unfold PyPath.parent. rewrite removelast_last, name_snoc.
      apply lookup_delete_eq.
    - unfold Fs.rmtree, Fs.is_link in Hdelete.
      rewrite locate_plain, Hl, lookup_empty in Hdelete by done.
      destruct (Fs.lookup_node fs file_path) as [[]|] eqn:Hnode;
        injection Hdelete as <- <-; try done.
      split; [cbn [Fs.links]; apply map_filter_empty |].
      cbn [Fs.nodes]. rewrite lookup_filter_outside.
      replace (PyPath.is_relative_to _ file_path) with true; [done |].
      symmetry. apply is_relative_to_within.
      destruct file_path as [|c dir_path _] using rev_ind; [by eexists |].
      unfold PyPath.parent. rewrite removelast_last, name_snoc.
      exists []. by rewrite app_nil_r. }
  destruct Hgone as [Hl' Hnone].
  destruct (list_directory_names self _ _ _ _ Hdir Hlist)
    as (_ & files0 & dirs0 & Hloop & -> & ->).
  assert (Hdd' : ".." ∉ PyPath.parent file_path).
  { intros Hin. apply Hdd. unfold PyPath.parent in Hin.
    destruct file_path as [|c dir_path _] using rev_ind; [done |].
    rewrite removelast_last in Hin. apply elem_of_app. by left. }
  rewrite resolve_plain in Hloop by done.
  apply list_entries_spec in Hloop as (nf & nd & Hf & Hd & _ & _ & Hperm).
  simpl in Hf, Hd. subst files0 dirs0.
  rewrite map_map in Hperm.
  rewrite (map_ext _ id) in Hperm by (intros n; apply name_snoc).
  rewrite map_id in Hperm.
  rewrite map_app, !sort_by_name_perm, <- map_app, Hperm.
  intros Hin. apply list_elem_of_filter in Hin as [_ Hin].
  apply children_spec in Hin. rewrite Hnone, Hl', lookup_empty in Hin.
  by destruct Hin as [[? ?]|[? ?]].
Qed.

Lemma delete_then_list_witness :
  let out := delete_file Sample.manager Sample.tree_listing "sub" in
  ∃ response,
    list_directory (H := Sample.platform) Sample.manager out.1 EmptyString = inr response
    ∧ "sub" ∉ map name (files response ++ directories response).
Proof.
  intros out.
  destruct (list_directory (H := Sample.platform) Sample.manager out.1 EmptyString)
    as [e|response] eqn:Hlist; [by vm_compute in Hlist |].
  exists response. split; [done |].
  exact (delete_then_list (H := Sample.platform) Sample.manager Sample.tree_listing
           "sub" out.1 out.2 ["data"; "sub"] EmptyString response
           eq_refl (surjective_pairing _) eq_refl eq_refl eq_refl Hlist).
Defined.

(** ** The batch endpoint: what is carried out, and batches in a row *)

Section BatchRuns.

Context `{Platform}.
Variable sm : SecurityManager.

(** The loop carries out a front part of the operations, one entry each,
    and what it leaves is what that front part alone leaves. *)
Lemma batch_loop_take (ops : list Operation) (continue : bool) :
  ∀ (fs : Fs.filesystem) (acc : Acc) (fs' : Fs.filesystem) (acc' : Acc),
    batch_loop sm fs ops continue acc = (fs', acc') →
    ∃ k, length (acc_results acc') = (length (acc_results acc) + k)%nat
         ∧ batch_loop sm fs (take k ops) continue acc = (fs', acc').
Proof.
  induction ops as [|operation rest IH]; intros fs acc fs' acc'.
  - simpl. intros [= <- <-]. exists 0%nat. split; [lia | done].
  - cbn [batch_loop].
    destruct (dispatch sm fs operation) as [e|[fs1 result]] eqn:Hd.
    + destruct continue; cbn [negb].
      * intros Hrun. destruct (IH _ _ _ _ Hrun) as (k & Hlen & Htake).
        exists (S k). cbn [take batch_loop]. rewrite Hd. cbn [negb].
        split; [|done]. rewrite Hlen. cbn. rewrite length_app. simpl. lia.
      * intros [= <- <-]. exists 1%nat. cbn [take batch_loop]. rewrite Hd. cbn.
        split; [|done]. rewrite length_app. simpl. lia.
    + destruct (r_success result) eqn:Hok.
      * intros Hrun. destruct (IH _ _ _ _ Hrun) as (k & Hlen & Htake).
        exists (S k). cbn [take batch_loop]. rewrite Hd, Hok.
        split; [|done]. rewrite Hlen. cbn. rewrite length_app. simpl. lia.
      * destruct continue; cbn [negb].
        -- intros Hrun. destruct (IH _ _ _ _ Hrun) as (k & Hlen & Htake).
           exists (S k). cbn [take batch_loop]. rewrite Hd, Hok. cbn [negb].
           split; [|done]. rewrite Hlen. cbn. rewrite length_app. simpl. lia.
        -- intros [= <- <-]. exists 1%nat. cbn [take batch_loop]. rewrite Hd, Hok. cbn.
           split; [|done]. rewrite length_app. simpl. lia.
Qed.

(** What the loop adds does not depend on what was gathered before. *)
Lemma batch_loop_acc (ops : list Operation) (continue : bool) :
  ∀ (fs : Fs.filesystem) (a b : Acc),
    batch_loop sm fs ops continue
      (mkAcc (acc_results a ++ acc_results b) (acc_errors a ++ acc_errors b)
             (acc_successful a + acc_successful b))
    = let out := batch_loop sm fs ops continue b in
      (out.1, mkAcc (acc_results a ++ acc_results out.2)
                    (acc_errors a ++ acc_errors out.2)
                    (acc_successful a + acc_successful out.2)%Z).
Proof.
  induction ops as [|operation rest IH]; intros fs a b; [done |].
  cbn [batch_loop acc_results acc_errors acc_successful].
  destruct (dispatch sm fs operation) as [e|[fs1 result]].
  - rewrite <- !app_assoc. destruct continue; cbn [negb]; [|done].
    apply (IH fs a (mkAcc _ _ _)).
  - rewrite <- !app_assoc. destruct (r_success result).
    + rewrite <- Z.add_assoc. apply (IH fs1 a (mkAcc _ _ _)).
    + destruct continue; cbn [negb]; [|done]. apply (IH fs1 a (mkAcc _ _ _)).
Qed.

(** With [continue_on_error], the loop over two lists in a row is the loop
    over the first followed by the loop over the second. *)
Lemma batch_loop_app (ops1 ops2 : list Operation) :
  ∀ (fs : Fs.filesystem) (acc : Acc),
    batch_loop sm fs (ops1 ++ ops2) true acc
    = let out := batch_loop sm fs ops1 true acc in
      batch_loop sm out.1 ops2 true out.2.
Proof.
  induction ops1 as [|operation rest IH]; intros fs acc; [done |].
  cbn [app batch_loop negb].
  destruct (dispatch sm fs operation) as [e|[fs1 result]]; [apply IH |].
  destruct (r_success result); apply IH.
Qed.

End BatchRuns.

(** X23.  An operation without an entry in the results was not carried out:
    the batch leaves the tree, the results, the errors and the number of
    successes that the batch of the operations with an entry leaves. *)
Theorem batch_attempted_only `{Platform} (sm : SecurityManager)
        (fs : Fs.filesystem) (request : BatchOperationRequest) :
  let out := batch_operations sm fs request in
  let attempted := take (length (results out.2)) (operations request) in
  let short :=
    batch_operations sm fs (mkBatch attempted (continue_on_error request)) in
  short.1 = out.1
  ∧ results short.2 = results out.2
  ∧ errors short.2 = errors out.2
  ∧ successful_operations short.2 = successful_operations out.2
  ∧ total_operations short.2 = Z.of_nat (length (results out.2)).
Proof.
  intros out attempted short. subst short attempted out. unfold batch_operations.
  cbn [operations continue_on_error].
  destruct (batch_loop sm fs (operations request) (continue_on_error request)
                       (mkAcc [] [] 0)) as [fs' acc'] eqn:Hloop.
  destruct (batch_loop_take sm _ _ _ _ _ _ Hloop) as (k & Hlen & Htake).
  cbn [snd results] in *. simpl in Hlen. rewrite Hlen, Htake. cbn.
  split_and!; try done.
  destruct (batch_loop_spec sm _ _ _ _ _ _ Hloop)
    as (att & skipped & new & Hops & Hrep & Hr & _).
  simpl in Hr. apply Forall2_length in Hrep.
  rewrite length_take, Hops, length_app. rewrite Hr in Hlen. lia.
Qed.

(** X24.  With [continue_on_error], the batch of two lists of operations in
    a row is the batch of the first followed by the batch of the second on
    the tree the first leaves: the results and the errors follow each
    other and the counts add up. *)
Theorem batch_operations_app `{Platform} (sm : SecurityManager)
        (fs : Fs.filesystem) (ops1 ops2 : list Operation) :
  let first := batch_operations sm fs (mkBatch ops1 true) in
  let second := batch_operations sm first.1 (mkBatch ops2 true) in
  let both := batch_operations sm fs (mkBatch (ops1 ++ ops2) true) in
  both.1 = second.1
  ∧ results both.2 = results first.2 ++ results second.2
  ∧ errors both.2 = errors first.2 ++ errors second.2
  ∧ successful_operations both.2
    = (successful_operations first.2 + successful_operations second.2)%Z
  ∧ failed_operations both.2
    = (failed_operations first.2 + failed_operations second.2)%Z
  ∧ total_operations both.2
    = (total_operations first.2 + total_operations second.2)%Z.
Proof.
  intros first second both. subst both second first. unfold batch_operations.
  cbn [operations continue_on_error]. rewrite batch_loop_app.
  destruct (batch_loop sm fs ops1 true (mkAcc [] [] 0)) as [fs1 acc1] eqn:H1.
  cbn [fst snd].
  pose proof (batch_loop_acc sm ops2 true fs1 acc1 (mkAcc [] [] 0)) as Hacc.
  cbn [acc_results acc_errors acc_successful] in Hacc.
  rewrite !app_nil_r, Z.add_0_r in Hacc.
  destruct acc1 as [r1 e1 s1]. cbn [acc_results acc_errors acc_successful] in Hacc.
  rewrite Hacc.
  destruct (batch_loop sm fs1 ops2 true (mkAcc [] [] 0)) as [fs2 acc2].
  cbn. rewrite length_app. split_and!; try done; lia.
Qed.
